(** * libaacs, [src/libaacs/crypto.c]: a shallow embedding

    The file embeds the byte-level code of [crypto.c] (AES-G3, the
    single-block CMAC, the ECDSA sign/verify wrappers, certificate
    checks, host key pair and bus key derivation) and proves or refutes
    the properties its specification states about it.

    Conventions.
    - A [uint8_t] is a [Z] in [0, 256); a store into a [uint8_t] is
      written [u8] (reduction modulo 256).
    - A buffer is a [list Z]; [buf[i] = v] is stdpp's [<[i:=v]> buf].
    - libgcrypt (ciphers, digests, S-expressions, public-key operations)
      is an injected capability, the record [gcrypt]; every call to it
      is recorded in a log of [event]s, so that "no cryptographic work
      was done" is a statement about that log.
    - A read outside a buffer (undefined behaviour in C) is the [None]
      branch of an [option]. *)

From Stdlib Require Import ZArith Zcong List Lia Bool String.
From stdpp Require Import base list option.
Import ListNotations.
Local Open Scope Z_scope.
Set Warnings "-register-all".

(** ** Bytes and buffers *)

Definition byte_ok (b : Z) : Prop := 0 <= b < 256.

Definition bytes (l : list Z) : Prop := Forall byte_ok l.

(** Store into a [uint8_t]. *)
Definition u8 (z : Z) : Z := z mod 256.

(** [buf[i]], for an index the caller keeps in range. *)
Definition rd (buf : list Z) (i : nat) : Z := nth i buf 0.

(** Value of a buffer read as a big-endian unsigned integer. *)
Fixpoint be_to_Z (l : list Z) : Z :=
  match l with
  | [] => 0
  | b :: t => b * 2 ^ (8 * Z.of_nat (length t)) + be_to_Z t
  end.

(** The [n]-byte big-endian encoding of [a] (its low [8n] bits). *)
Fixpoint be_bytes (n : nat) (a : Z) : list Z :=
  match n with
  | O => []
  | S k => be_bytes k (a / 256) ++ [a mod 256]
  end.

(** Overwrite [buf] from offset [off] with [data] (a [memcpy] into
    [buf + off] that stays inside the buffer). *)
Definition write_at (buf : list Z) (off : nat) (data : list Z) : list Z :=
  take off buf ++ data ++ drop (off + length data) buf.

(** [memcpy(dst, buf + off, len)] seen from the source side: the [len]
    bytes at [buf + off], or [None] when the range leaves the buffer. *)
Definition memcpy_src (buf : list Z) (off : Z) (len : nat) : option (list Z) :=
  if (0 <=? off) && (off + Z.of_nat len <=? Z.of_nat (length buf))
  then Some (take len (drop (Z.to_nat off) buf))
  else None.

(** ** Multi-precision integers

    An MPI is a [Z]; the values met here are never negative. *)

(** [gcry_mpi_scan(&m, GCRYMPI_FMT_USG, buf, nbytes, NULL)]. *)
Definition gcry_mpi_scan (buf : list Z) (nbytes : nat) : Z :=
  be_to_Z (take nbytes buf).

Definition mpi_get_nbits (a : Z) : Z := if a <=? 0 then 0 else Z.log2 a + 1.

(** Modelled from the spec: libgcrypt's [GCRYMPI_FMT_USG] output is not
    under src/; the specification calls it the minimal big-endian
    encoding, [(nbits + 7) / 8] bytes with no leading zero byte and no
    byte at all for zero. *)
Definition mpi_usg (a : Z) : list Z :=
  be_bytes (Z.to_nat ((mpi_get_nbits a + 7) / 8)) a.

(** Modelled from the spec: [gcry_mpi_print(GCRYMPI_FMT_USG, buf + off,
    buflen, &n, a)] stores the minimal encoding at the start of the
    area and its length in [n]; when the area is too short nothing is
    stored and [n] keeps the value [n0] it had. *)
Definition gcry_mpi_print (buf : list Z) (off buflen : nat) (n0 : nat) (a : Z)
  : list Z * nat :=
  let e := mpi_usg a in
  if (length e <=? buflen)%nat then (write_at buf off e, length e)
  else (buf, n0).

(** Modelled from the spec: [MKINT_BE16] of util/macro.h is not under
    src/; the specification reads a 16-bit big-endian field. *)
Definition MKINT_BE16 (X : list Z) : Z :=
  Z.lor (Z.shiftl (rd X 0) 8) (rd X 1).

(** C's [!e] on an [int]. *)
Definition lnot (e : Z) : Z := if e =? 0 then 1 else 0.

(** ** The AACS curve *)

(** The macros [AACS_EC_p] ... [AACS_EC_G_y]: hexadecimal strings in C,
    used between [#] marks in S-expression formats, that is as octets. *)
Definition AACS_EC_p : list Z :=
  [0x9D;0xC9;0xD8;0x13;0x55;0xEC;0xCE;0xB5;0x60;0xBD;
   0xB0;0x9E;0xF9;0xEA;0xE7;0xC4;0x79;0xA7;0xD7;0xDF].
Definition AACS_EC_a : list Z :=
  [0x9D;0xC9;0xD8;0x13;0x55;0xEC;0xCE;0xB5;0x60;0xBD;
   0xB0;0x9E;0xF9;0xEA;0xE7;0xC4;0x79;0xA7;0xD7;0xDC].
Definition AACS_EC_b : list Z :=
  [0x40;0x2D;0xAD;0x3E;0xC1;0xCB;0xCD;0x16;0x52;0x48;
   0xD6;0x8E;0x12;0x45;0xE0;0xC4;0xDA;0xAC;0xB1;0xD8].
Definition AACS_EC_n : list Z :=
  [0x9D;0xC9;0xD8;0x13;0x55;0xEC;0xCE;0xB5;0x60;0xBD;
   0xC4;0x4F;0x54;0x81;0x7B;0x2C;0x7F;0x5A;0xB0;0x17].
Definition AACS_EC_G_x : list Z :=
  [0x2E;0x64;0xFC;0x22;0x57;0x83;0x51;0xE6;0xF4;0xCC;
   0xA7;0xEB;0x81;0xD0;0xA4;0xBD;0xC5;0x4C;0xCE;0xC6].
Definition AACS_EC_G_y : list Z :=
  [0x09;0x14;0xA2;0x5D;0xD0;0x54;0x42;0x88;0x9D;0xB4;
   0x55;0xC7;0xF2;0x3C;0x9A;0x07;0x07;0xF5;0xCB;0xB9].

Record mpi_point_t : Type := { px : Z; py : Z; pz : Z }.

Record elliptic_curve_t : Type := {
  ec_p : Z; ec_a : Z; ec_b : Z; ec_n : Z; ec_G : mpi_point_t
}.

Definition _aacs_curve_init : elliptic_curve_t :=
  let p   := [0x9D;0xC9;0xD8;0x13;0x55;0xEC;0xCE;0xB5;0x60;0xBD;
              0xB0;0x9E;0xF9;0xEA;0xE7;0xC4;0x79;0xA7;0xD7;0xDF] in
  let a   := [0x9D;0xC9;0xD8;0x13;0x55;0xEC;0xCE;0xB5;0x60;0xBD;
              0xB0;0x9E;0xF9;0xEA;0xE7;0xC4;0x79;0xA7;0xD7;0xDC] in
  let b   := [0x40;0x2D;0xAD;0x3E;0xC1;0xCB;0xCD;0x16;0x52;0x48;
              0xD6;0x8E;0x12;0x45;0xE0;0xC4;0xDA;0xAC;0xB1;0xD8] in
  let n   := [0x9D;0xC9;0xD8;0x13;0x55;0xEC;0xCE;0xB5;0x60;0xBD;
              0xC4;0x4F;0x54;0x81;0x7B;0x2C;0x7F;0x5A;0xB0;0x17] in
  let G_x := [0x2E;0x64;0xFC;0x22;0x57;0x83;0x51;0xE6;0xF4;0xCC;
              0xA7;0xEB;0x81;0xD0;0xA4;0xBD;0xC5;0x4C;0xCE;0xC6] in
  let G_y := [0x09;0x14;0xA2;0x5D;0xD0;0x54;0x42;0x88;0x9D;0xB4;
              0x55;0xC7;0xF2;0x3C;0x9A;0x07;0x07;0xF5;0xCB;0xB9] in
  {| ec_p := gcry_mpi_scan p 20;
     ec_a := gcry_mpi_scan a 20;
     ec_b := gcry_mpi_scan b 20;
     ec_n := gcry_mpi_scan n 20;
     ec_G := {| px := gcry_mpi_scan G_x 20;
                py := gcry_mpi_scan G_y 20;
                pz := 1 |} |}.

(** ** libgcrypt as an injected capability *)

Definition gcry_error_t : Type := Z.

(** S-expressions as [gcry_sexp_build] makes them: tokens, [#hex#]
    octet strings and [%m] integers. *)
Inductive sexp : Type :=
| SAtom (s : string)
| SData (octets : list Z)
| SMpi (m : Z)
| SList (l : list sexp).

(** A handle on an S-expression; [None] is C's [NULL]. *)
Definition gcry_sexp_t : Type := option sexp.

(** The first sublist whose head is the token [tok], searched depth
    first. *)
Fixpoint sexp_find (tok : string) (s : sexp) : option sexp :=
  match s with
  | SList l =>
      match l with
      | SAtom t :: _ => if String.eqb t tok then Some s else None
      | _ => None
      end
      ∪ (fix scan (l : list sexp) : option sexp :=
           match l with
           | [] => None
           | e :: l' => sexp_find tok e ∪ scan l'
           end) l
  | _ => None
  end.

(** [gcry_sexp_find_token (s, tok, 0)]. *)
Definition gcry_sexp_find_token (tok : string) (s : gcry_sexp_t) : gcry_sexp_t :=
  match s with
  | Some e => sexp_find tok e
  | None => None
  end.

(** [gcry_sexp_nth_mpi (s, number, GCRYMPI_FMT_USG)]. *)
Definition gcry_sexp_nth_mpi (s : gcry_sexp_t) (number : nat) : option Z :=
  match s with
  | Some (SList l) =>
      match l !! number with
      | Some (SMpi m) => Some m
      | Some (SData o) => Some (be_to_Z o)
      | _ => None
      end
  | _ => None
  end.

Record gcrypt : Type := {
  (** AES-128, ECB, one block: key, then block. *)
  cipher_encrypt : list Z -> list Z -> list Z;
  cipher_decrypt : list Z -> list Z -> list Z;
  cipher_encrypt_len : forall k b, length (cipher_encrypt k b) = 16%nat;
  cipher_decrypt_len : forall k b, length (cipher_decrypt k b) = 16%nat;
  cipher_encrypt_bytes : forall k b, bytes (cipher_encrypt k b);
  cipher_decrypt_bytes : forall k b, bytes (cipher_decrypt k b);
  (** SHA-1. *)
  md_sha1 : list Z -> list Z;
  (** Whether building the S-expression succeeds (0) or fails. *)
  sexp_build : sexp -> gcry_error_t;
  (** [gcry_pk_sign data key]: error code and signature expression. *)
  pk_sign : gcry_sexp_t -> gcry_sexp_t -> gcry_error_t * gcry_sexp_t;
  (** [gcry_pk_verify sig data key]: 0 when the signature is good. *)
  pk_verify : gcry_sexp_t -> gcry_sexp_t -> gcry_sexp_t -> gcry_error_t
}.

(** What the code asks of libgcrypt, in the order it asks. *)
Inductive event : Type :=
| EvCipherEncrypt (key block : list Z)
| EvCipherDecrypt (key block : list Z)
| EvMdHash (data : list Z)
| EvSexpBuild (s : sexp)
| EvPkSign (data key : gcry_sexp_t)
| EvPkVerify (sig data key : gcry_sexp_t).

(** A computation that returns a value and the log of its calls. *)
Definition M (A : Type) : Type := (A * list event)%type.

Definition ret {A} (x : A) : M A := (x, []).

Definition bind {A B} (m : M A) (f : A -> M B) : M B :=
  let '(x, l1) := m in let '(y, l2) := f x in (y, l1 ++ l2).

Notation "x <- c1 ;; c2" := (bind c1 (fun x => c2))
  (at level 100, c1 at next level, right associativity).

Definition value {A} (m : M A) : A := fst m.
Definition calls {A} (m : M A) : list event := snd m.

Section Gcrypt.
Context (g : gcrypt).

Definition gcry_cipher_encrypt (key block : list Z) : M (list Z) :=
  (cipher_encrypt g key block, [EvCipherEncrypt key block]).

Definition gcry_cipher_decrypt (key block : list Z) : M (list Z) :=
  (cipher_decrypt g key block, [EvCipherDecrypt key block]).

Definition gcry_md_hash_buffer (data : list Z) : M (list Z) :=
  (md_sha1 g data, [EvMdHash data]).

Definition gcry_sexp_build (s : sexp) : M gcry_error_t :=
  (sexp_build g s, [EvSexpBuild s]).

Definition gcry_pk_sign (data key : gcry_sexp_t) : M (gcry_error_t * gcry_sexp_t) :=
  (pk_sign g data key, [EvPkSign data key]).

Definition gcry_pk_verify (sig data key : gcry_sexp_t) : M gcry_error_t :=
  (pk_verify g sig data key, [EvPkVerify sig data key]).

(** ** AES-G3 *)

Definition aesg3_seed : list Z :=
  [0x7B; 0x10; 0x3C; 0x5D; 0xCB; 0x08; 0xC4; 0xE5;
   0x1A; 0x27; 0xB0; 0x17; 0x99; 0x05; 0x3B; 0xD9].

(** [for (a = from; a < from + count; a++) dst[a] ^= src[a];] *)
Fixpoint xor_loop (count from : nat) (dst src : list Z) : list Z :=
  match count with
  | O => dst
  | S c => xor_loop c (S from) (<[from := Z.lxor (rd dst from) (rd src from)]> dst) src
  end.

Definition _aesg3 (src_key : list Z) (inc : Z) : M (list Z) :=
  let seed := <[15%nat := u8 (rd aesg3_seed 15 + inc)]> aesg3_seed in
  dst_key <- gcry_cipher_decrypt src_key seed ;;
  ret (xor_loop 16 0 dst_key seed).

(** An output pointer is [None] when the caller passes [NULL]; the
    result gives the three buffers in the order [lsubk], [rsubk], [pk]. *)
Definition crypto_aesg3 (D : list Z) (lsubk rsubk pk : option (list Z))
  : M (option (list Z) * option (list Z) * option (list Z)) :=
  lsubk' <- match lsubk with
            | Some _ => k <- _aesg3 D 0 ;; ret (Some k)
            | None => ret None
            end ;;
  pk' <- match pk with
         | Some _ => k <- _aesg3 D 1 ;; ret (Some k)
         | None => ret None
         end ;;
  rsubk' <- match rsubk with
            | Some _ => k <- _aesg3 D 2 ;; ret (Some k)
            | None => ret None
            end ;;
  ret (lsubk', rsubk', pk').

(** ** AES CMAC *)

(** [for (i = 15; i >= 0; i--) { dst[i] = (src[i] << 1) | overflow;
    overflow = src[i] >> 7; }]: [count] is [i + 1]. *)
Fixpoint shl_loop (count : nat) (dst src : list Z) (overflow : Z) : list Z :=
  match count with
  | O => dst
  | S i =>
      shl_loop i (<[i := u8 (Z.lor (Z.shiftl (rd src i) 1) overflow)]> dst) src
               (Z.shiftr (rd src i) 7)
  end.

Definition _shl_128 (dst src : list Z) : list Z := shl_loop 16 dst src 0.

(** [k1] and [k2] are the caller's arrays as they are on entry. *)
Definition _cmac_key (aes_key k1 k2 : list Z) : M (list Z * list Z) :=
  let key := replicate 16 0 in
  key <- gcry_cipher_encrypt aes_key key ;;
  let k1 := _shl_128 k1 key in
  let k1 := if Z.land (rd key 0) 0x80 =? 0 then k1
            else <[15%nat := Z.lxor (rd k1 15) 0x87]> k1 in
  let k2 := _shl_128 k2 k1 in
  let k2 := if Z.land (rd k1 0) 0x80 =? 0 then k2
            else <[15%nat := Z.lxor (rd k2 15) 0x87]> k2 in
  ret (k1, k2).

(** The local arrays [k1], [k2] are not initialised in C; [_shl_128]
    writes all of their 16 bytes before any is read
    (lemma [shl_128_dst_irrelevant]), so they start here as zeros. *)
Definition crypto_aes_cmac_16 (data aes_key : list Z) : M (list Z) :=
  ks <- _cmac_key aes_key (replicate 16 0) (replicate 16 0) ;;
  let cmac := take 16 data in
  let cmac := xor_loop 16 0 cmac (fst ks) in
  gcry_cipher_encrypt aes_key cmac.

(** ** S-expressions for keys, digests and signatures

    [GCRY_VERIFY(msg, op)] runs [op] and, on a non-zero error code,
    logs and jumps to the function's [error:] label; below it is the
    test [if err =? 0 then (the rest) else (the code after error:)].
    A builder returns its error code together with the handle it
    leaves in its output parameter, [NULL] ([None]) after a failure. *)

(** The expression [strfmt] denotes once [%s] and [%m] are filled in. *)
Definition sexp_key_fmt (Q : list Z) (mpi_d : option Z) : sexp :=
  SList [SAtom (match mpi_d with Some _ => "private-key" | None => "public-key" end);
         SList ([SAtom "ecdsa";
                 SList [SAtom "p"; SData AACS_EC_p];
                 SList [SAtom "a"; SData AACS_EC_a];
                 SList [SAtom "b"; SData AACS_EC_b];
                 SList [SAtom "g"; SData ([0x04] ++ AACS_EC_G_x ++ AACS_EC_G_y)];
                 SList [SAtom "n"; SData AACS_EC_n];
                 SList [SAtom "q"; SData Q]]
                ++ match mpi_d with
                   | Some d => [SList [SAtom "d"; SMpi d]]
                   | None => []
                   end)].

(** [priv_key] is [None] for a [NULL] pointer. *)
Definition _aacs_sexp_key (q_x q_y : list Z) (priv_key : option (list Z))
  : M (gcry_error_t * gcry_sexp_t) :=
  let Q := [0x04] ++ take 20 q_x ++ take 20 q_y in
  let mpi_d := match priv_key with
               | Some k => Some (gcry_mpi_scan k 20)
               | None => None
               end in
  let strfmt := sexp_key_fmt Q mpi_d in
  err <- gcry_sexp_build strfmt ;;
  if err =? 0 then ret (err, Some strfmt) else ret (err, None).

Definition sexp_data_fmt (mpi_md : Z) : sexp :=
  SList [SAtom "data";
         SList [SAtom "flags"; SAtom "raw"];
         SList [SAtom "value"; SMpi mpi_md]].

Definition _aacs_sexp_sha1 (block : list Z) (len : nat)
  : M (gcry_error_t * gcry_sexp_t) :=
  md <- gcry_md_hash_buffer (take len block) ;;
  let mpi_md := gcry_mpi_scan md 20 in
  err <- gcry_sexp_build (sexp_data_fmt mpi_md) ;;
  if err =? 0 then ret (err, Some (sexp_data_fmt mpi_md)) else ret (err, None).

Definition sexp_sig_fmt (mpi_r mpi_s : Z) : sexp :=
  SList [SAtom "sig-val";
         SList [SAtom "ecdsa";
                SList [SAtom "r"; SMpi mpi_r];
                SList [SAtom "s"; SMpi mpi_s]]].

Definition _aacs_sexp_signature (signature : list Z)
  : M (gcry_error_t * gcry_sexp_t) :=
  let mpi_r := gcry_mpi_scan signature 20 in
  let mpi_s := gcry_mpi_scan (drop 20 signature) 20 in
  err <- gcry_sexp_build (sexp_sig_fmt mpi_r mpi_s) ;;
  if err =? 0 then ret (err, Some (sexp_sig_fmt mpi_r mpi_s)) else ret (err, None).

(** ** Signing and verifying *)

(** The function returns [void]: all the caller gets back is the
    [signature] buffer. The result is that buffer after the call, or
    [None] when the code hands a [NULL] MPI to [gcry_mpi_print]
    (a signature expression without [r] or [s]). The local array
    [block] is filled entirely by the two [memcpy]s. *)
Definition crypto_aacs_sign (cert priv_key signature nonce point : list Z)
  : M (option (list Z)) :=
  k <- _aacs_sexp_key (drop 12 cert) (drop 32 cert) (Some priv_key) ;;
  if fst k =? 0 then
    let block := take 20 nonce ++ take 40 point in
    d <- _aacs_sexp_sha1 block 60 ;;
    if fst d =? 0 then
      sg <- gcry_pk_sign (snd d) (snd k) ;;
      if fst sg =? 0 then
        let sexp_r := gcry_sexp_find_token "r" (snd sg) in
        let sexp_s := gcry_sexp_find_token "s" (snd sg) in
        let mpi_r := gcry_sexp_nth_mpi sexp_r 1 in
        let mpi_s := gcry_sexp_nth_mpi sexp_s 1 in
        match mpi_r, mpi_s with
        | Some r, Some s =>
            let signature := fst (gcry_mpi_print signature 0 20 0 r) in
            let signature := fst (gcry_mpi_print signature 20 20 0 s) in
            ret (Some signature)
        | _, _ => ret None
        end
      else ret (Some signature)
    else ret (Some signature)
  else ret (Some signature).

Definition _aacs_verify (signature q_x q_y data : list Z) (len : nat)
  : M gcry_error_t :=
  k <- _aacs_sexp_key q_x q_y None ;;
  if fst k =? 0 then
    d <- _aacs_sexp_sha1 data len ;;
    if fst d =? 0 then
      sg <- _aacs_sexp_signature signature ;;
      if fst sg =? 0 then
        gcry_pk_verify (snd sg) (snd d) (snd k)
      else ret (fst sg)
    else ret (fst d)
  else ret (fst k).

Definition crypto_aacs_verify (cert signature data : list Z) (len : nat) : M Z :=
  err <- _aacs_verify signature (drop 12 cert) (drop 32 cert) data len ;;
  ret (lnot err).

Definition aacs_la_pubkey_x : list Z :=
  [0x63; 0xC2; 0x1D; 0xFF; 0xB2; 0xB2; 0x79; 0x8A; 0x13; 0xB5;
   0x8D; 0x61; 0x16; 0x6C; 0x4E; 0x4A; 0xAC; 0x8A; 0x07; 0x72].

Definition aacs_la_pubkey_y : list Z :=
  [0x13; 0x7E; 0xC6; 0x38; 0x81; 0x8F; 0xD9; 0x8F; 0xA4; 0xC3;
   0x0B; 0x99; 0x67; 0x28; 0xBF; 0x4B; 0x91; 0x7F; 0x6A; 0x27].

Definition crypto_aacs_verify_aacsla (signature data : list Z) (len : nat) : M Z :=
  err <- _aacs_verify signature aacs_la_pubkey_x aacs_la_pubkey_y data len ;;
  ret (lnot err).

Definition crypto_aacs_verify_cert (cert : list Z) : M Z :=
  if negb (MKINT_BE16 (drop 2 cert) =? 0x5c) then ret 0
  else crypto_aacs_verify_aacsla (drop 52 cert) cert 52.

Definition crypto_aacs_verify_host_cert (cert : list Z) : M Z :=
  if negb (rd cert 0 =? 0x02) then ret 0
  else
    ok <- crypto_aacs_verify_cert cert ;;
    if lnot ok =? 0 then ret 1 else ret 0.

Definition crypto_aacs_verify_drive_cert (cert : list Z) : M Z :=
  if negb (rd cert 0 =? 0x01) then ret 0
  else
    ok <- crypto_aacs_verify_cert cert ;;
    if lnot ok =? 0 then ret 1 else ret 0.

End Gcrypt.

(** ** Elliptic-curve arithmetic ([ec.c])

    [crypto.c] includes [ec.c], libgcrypt's point arithmetic, which is
    not part of the sources at hand. *)

Record mpi_ec_t : Type := { ctx_p : Z; ctx_a : Z }.

Definition _gcry_mpi_ec_init (p a : Z) : mpi_ec_t := {| ctx_p := p; ctx_a := a |}.

(** Inverse modulo [p] ([mpi_invm]). *)
Definition ec_invm (ctx : mpi_ec_t) (x : Z) : Z := Z.invmod x (ctx_p ctx).

(** An affine point; [None] is the point at infinity. *)
Definition affine : Type := option (Z * Z).

(** Modelled from the spec: the group law of [y^2 = x^3 + a x + b] over
    the integers modulo [p], which [ec.c] computes on projective
    triples ("all arithmetic is modulo p"). *)
Definition ec_add (ctx : mpi_ec_t) (P Q : affine) : affine :=
  let p := ctx_p ctx in
  match P, Q with
  | None, _ => Q
  | _, None => P
  | Some (x1, y1), Some (x2, y2) =>
      if (x1 - x2) mod p =? 0 then
        if (y1 + y2) mod p =? 0 then None
        else
          let l := ((3 * x1 * x1 + ctx_a ctx) * ec_invm ctx (2 * y1)) mod p in
          let x3 := (l * l - x1 - x2) mod p in
          Some (x3, (l * (x1 - x3) - y1) mod p)
      else
        let l := ((y2 - y1) * ec_invm ctx (x2 - x1)) mod p in
        let x3 := (l * l - x1 - x2) mod p in
        Some (x3, (l * (x1 - x3) - y1) mod p)
  end.

(** The scalar multiple [k P], by doubling and adding. *)
Definition ec_mul (ctx : mpi_ec_t) (k : Z) (P : affine) : affine :=
  match k with
  | Zpos n => Pos.iter_op (ec_add ctx) n P
  | _ => None
  end.

(** Modelled from the spec: [_gcry_mpi_ec_get_affine] of [ec.c]
    ("toAffine normalizes a projective point, failing if the point is
    the identity"): [None] when [z] is zero modulo [p], with nothing
    stored in [x] and [y]. *)
Definition _gcry_mpi_ec_get_affine (point : mpi_point_t) (ctx : mpi_ec_t)
  : option (Z * Z) :=
  let p := ctx_p ctx in
  if pz point mod p =? 0 then None
  else
    let z1 := ec_invm ctx (pz point) in
    Some ((px point * z1) mod p, (py point * z1) mod p).

(** Modelled from the spec: [_gcry_mpi_ec_mul_point] of [ec.c]
    ("scalarMultiply computes the scalar multiple of a point"). The
    result has [z = 1], or [z = 0] for the point at infinity. *)
Definition _gcry_mpi_ec_mul_point (scalar : Z) (point : mpi_point_t) (ctx : mpi_ec_t)
  : mpi_point_t :=
  match ec_mul ctx scalar (_gcry_mpi_ec_get_affine point ctx) with
  | Some (x, y) => {| px := x; py := y; pz := 1 |}
  | None => {| px := 0; py := 0; pz := 0 |}
  end.

(** ** Key agreement *)

(** [q_x_bin] is the 100-byte local array as it is on entry. The result
    is the 16 bytes copied to [bus_key], or [None] when the [memcpy]
    reads outside [q_x_bin]. [q_x] and [q_y] are [mpi_new(0)], and stay
    zero when the conversion to affine coordinates fails. *)
Definition crypto_create_bus_key (priv_key drive_key_point q_x_bin : list Z)
  : option (list Z) :=
  let ec := _aacs_curve_init in
  let ctx := _gcry_mpi_ec_init (ec_p ec) (ec_a ec) in
  let mpi_priv_key := gcry_mpi_scan priv_key 20 in
  let Q := {| px := gcry_mpi_scan drive_key_point 20;
              py := gcry_mpi_scan (drop 20 drive_key_point) 20;
              pz := 1 |} in
  let bus_key_point := _gcry_mpi_ec_mul_point mpi_priv_key Q ctx in
  let q := default (0, 0) (_gcry_mpi_ec_get_affine bus_key_point ctx) in
  let q_x := fst q in
  let pr := gcry_mpi_print q_x_bin 0 100 0 q_x in
  let q_x_bin := fst pr in
  let n := snd pr in
  memcpy_src q_x_bin (Z.of_nat n - 16) 16.

(** [random] is what [gcry_randomize] puts into [host_key];
    [host_key_point] is the caller's 40-byte buffer as it is on entry.
    The result is the pair of buffers after the call. *)
Definition crypto_create_host_key_pair (random host_key_point : list Z)
  : list Z * list Z :=
  let host_key := take 20 random in
  let d := gcry_mpi_scan host_key 20 in
  let ec := _aacs_curve_init in
  let ctx := _gcry_mpi_ec_init (ec_p ec) (ec_a ec) in
  let Q := _gcry_mpi_ec_mul_point d (ec_G ec) ctx in
  let q := default (0, 0) (_gcry_mpi_ec_get_affine Q ctx) in
  let q_x := fst q in
  let q_y := snd q in
  let host_key_point := fst (gcry_mpi_print host_key_point 0 20 0 q_x) in
  let host_key_point := fst (gcry_mpi_print host_key_point 20 20 0 q_y) in
  (host_key, host_key_point).

(** ** What the specification says, in its own words *)

(** Byte-wise XOR of two blocks. *)
Definition xor_bytes (a b : list Z) : list Z := zip_with Z.lxor a b.

(** [SEED] with its last byte incremented by [inc] modulo 256. *)
Definition aesg3_seed_inc (inc : Z) : list Z :=
  [0x7B; 0x10; 0x3C; 0x5D; 0xCB; 0x08; 0xC4; 0xE5;
   0x1A; 0x27; 0xB0; 0x17; 0x99; 0x05; 0x3B; (0xD9 + inc) mod 256].

(** AES-decrypt [seed'] under [K], then XOR with [seed']. *)
Definition aesg3_spec (g : gcrypt) (K : list Z) (inc : Z) : list Z :=
  xor_bytes (cipher_decrypt g K (aesg3_seed_inc inc)) (aesg3_seed_inc inc).

(** The CMAC subkey of a 128-bit [L]: [L] shifted left by one bit in
    128 bits, XORed with 0x87 when the top bit of [L] is set. *)
Definition cmac_subkey (L : Z) : Z :=
  Z.lxor ((2 * L) mod 2 ^ 128) (if Z.testbit L 127 then 0x87 else 0).

(** [_shl_128] without indices: the shifted list and the carry out of
    its first byte. *)
Fixpoint shl_list (l : list Z) : list Z * Z :=
  match l with
  | [] => ([], 0)
  | b :: t =>
      let r := shl_list t in
      (u8 (Z.lor (Z.shiftl b 1) (snd r)) :: fst r, Z.shiftr b 7)
  end.

(** What an AES-G3 output buffer holds after the call: nothing for a
    [NULL] pointer, the derivation for [inc] otherwise. *)
Definition aesg3_requested (g : gcrypt) (K : list Z) (out : option (list Z)) (inc : Z)
  : option (list Z) :=
  match out with
  | Some _ => Some (aesg3_spec g K inc)
  | None => None
  end.

(** The decryption it costs. *)
Definition aesg3_calls (K : list Z) (out : option (list Z)) (inc : Z) : list event :=
  match out with
  | Some _ => [EvCipherDecrypt K (aesg3_seed_inc inc)]
  | None => []
  end.

(** The carry path as the specification words it: the top bit of each
    byte arrives in the low bit of the next less significant byte, the
    one at the next higher index (byte 0 is the most significant). *)
Definition carry_into_less_significant (src out : list Z) : Prop :=
  forall i, (i < 15)%nat -> Z.testbit (rd out (S i)) 0 = Z.testbit (rd src i) 7.

(** The carry path towards the more significant byte, at the next
    lower index. *)
Definition carry_into_more_significant (src out : list Z) : Prop :=
  forall i, (i < 15)%nat -> Z.testbit (rd out i) 0 = Z.testbit (rd src (S i)) 7.

(** [bytes], as a test. *)
Definition bytesb (l : list Z) : bool :=
  forallb (fun b => (0 <=? b) && (b <? 256)) l.

(** ** The specification's view of the certificate and signing paths *)

(** The 16-bit big-endian length field at offset 2. *)
Definition cert_length_field (cert : list Z) : Z := be_to_Z (take 2 (drop 2 cert)).

(** The key, digest and signature expressions [crypto_aacs_sign] works
    with. *)
Definition sign_key (cert priv_key : list Z) : sexp :=
  sexp_key_fmt ([0x04] ++ take 20 (drop 12 cert) ++ take 20 (drop 32 cert))
               (Some (gcry_mpi_scan priv_key 20)).

Definition sign_digest (g : gcrypt) (nonce point : list Z) : sexp :=
  sexp_data_fmt (gcry_mpi_scan (md_sha1 g (take 20 nonce ++ take 40 point)) 20).

(** Some construction, or the signing itself, fails. *)
Definition sign_fails (g : gcrypt) (cert priv_key nonce point : list Z) : Prop :=
  sexp_build g (sign_key cert priv_key) <> 0
  \/ sexp_build g (sign_digest g nonce point) <> 0
  \/ fst (pk_sign g (Some (sign_digest g nonce point)) (Some (sign_key cert priv_key))) <> 0.

(** "Sign returns an error to the caller": from what the caller has,
    the arguments it passed and the buffer it gets back, it can tell
    whether the operation failed. *)
Definition sign_reports_failure : Prop :=
  exists decode : list Z -> list Z -> list Z -> list Z -> list Z -> option (list Z) -> bool,
    forall g cert priv_key signature nonce point,
      decode cert priv_key signature nonce point
             (value (crypto_aacs_sign g cert priv_key signature nonce point)) = true
      <-> sign_fails g cert priv_key nonce point.

(** ** The specification's view of the bus key *)

(** The affine x-coordinate [q_x] of [priv_key] times the peer point,
    as [crypto_create_bus_key] obtains it. *)
Definition bus_key_x (priv_key drive_key_point : list Z) : Z :=
  let ec := _aacs_curve_init in
  let ctx := _gcry_mpi_ec_init (ec_p ec) (ec_a ec) in
  let Q := {| px := gcry_mpi_scan drive_key_point 20;
              py := gcry_mpi_scan (drop 20 drive_key_point) 20;
              pz := 1 |} in
  fst (default (0, 0)
         (_gcry_mpi_ec_get_affine
            (_gcry_mpi_ec_mul_point (gcry_mpi_scan priv_key 20) Q ctx) ctx)).

(** The context and the base point of the AACS curve. *)
Definition aacs_ctx : mpi_ec_t :=
  _gcry_mpi_ec_init (ec_p _aacs_curve_init) (ec_a _aacs_curve_init).

Definition aacs_G : affine :=
  Some (px (ec_G _aacs_curve_init), py (ec_G _aacs_curve_init)).

(** "The low-order 16 bytes of the big-endian encoding, left-padded with
    zero bytes when it is shorter." *)
Definition low16 (x : Z) : list Z := be_bytes 16 x.

(** ** A stand-in for libgcrypt

    The embedding runs on concrete inputs once the capability is
    given. The stand-in ciphers add and subtract the key byte by byte;
    the digest and the public-key operations are passed in. *)

Definition fake_block (f : nat -> Z) : list Z :=
  map (fun i => f i mod 256) (seq 0 16).

Definition fake_gcrypt
           (sha1 : list Z -> list Z)
           (build : sexp -> gcry_error_t)
           (sign : gcry_sexp_t -> gcry_sexp_t -> gcry_error_t * gcry_sexp_t)
           (verify : gcry_sexp_t -> gcry_sexp_t -> gcry_sexp_t -> gcry_error_t)
  : gcrypt.
Proof.
  refine {| cipher_encrypt := fun k b => fake_block (fun i => rd b i + rd k i + 1);
            cipher_decrypt := fun k b => fake_block (fun i => rd b i - rd k i - 1);
            md_sha1 := sha1;
            sexp_build := build;
            pk_sign := sign;
            pk_verify := verify |};
    intros k b; try reflexivity;
    unfold fake_block, bytes; cbn [seq map];
    repeat (constructor; [apply Z.mod_pos_bound; reflexivity|]); constructor.
Defined.

(** A digest stand-in: the first 20 bytes, each incremented. *)
Definition fake_sha1 (data : list Z) : list Z :=
  map (fun i => (rd data i + 1) mod 256) (seq 0 20).

(** Public-key stand-ins: a signer that returns the pair (r, s), one
    that fails, and a verifier that accepts the pair (r, s) only. *)
Definition fake_sign (r s : Z) (data key : gcry_sexp_t) : gcry_error_t * gcry_sexp_t :=
  (0, Some (SList [SAtom "sig-val";
                   SList [SAtom "ecdsa";
                          SList [SAtom "r"; SMpi r];
                          SList [SAtom "s"; SMpi s]]])).

Definition fake_sign_error (data key : gcry_sexp_t) : gcry_error_t * gcry_sexp_t :=
  (1, None).

Definition fake_verify (r s : Z) (sig data key : gcry_sexp_t) : gcry_error_t :=
  match gcry_sexp_nth_mpi (gcry_sexp_find_token "r" sig) 1,
        gcry_sexp_nth_mpi (gcry_sexp_find_token "s" sig) 1 with
  | Some r', Some s' => if (r' =? r) && (s' =? s) then 0 else 8
  | _, _ => 8
  end.

(** A builder that fails on private keys only. *)
Definition fake_build_no_private (s : sexp) : gcry_error_t :=
  match s with
  | SList (SAtom "private-key" :: _) => 1
  | _ => 0
  end.

(** A 92-byte certificate: type, length field 0x005c, and bytes
    counting up. *)
Definition sample_cert (type : Z) : list Z :=
  [type; 0; 0; 0x5c] ++ map Z.of_nat (seq 4 88).

(** ** Initialisation *)

(** [crypto_init_check] is the function's [static int] as it is on
    entry; [version_ok] tells whether [gcry_check_version] answers a
    non-[NULL] string when it is asked. The result is the value
    returned, the static flag after the call, and whether libgcrypt was
    asked at all. The [gcry_control] call made under [HAVE_PTHREAD_H]
    returns nothing the function looks at and is left out. *)
Definition crypto_init (version_ok : bool) (crypto_init_check : Z) : Z * Z * bool :=
  if negb (lnot crypto_init_check =? 0) then
    let crypto_init_check := 1 in
    let crypto_init_check := if negb version_ok then 0 else crypto_init_check in
    (crypto_init_check, crypto_init_check, true)
  else (crypto_init_check, crypto_init_check, false).

(** Successive calls of [crypto_init], the static flag threaded from one
    to the next: the [k]-th answer is the one [gcry_check_version] has
    ready during the [k]-th call. Each call gives the value returned and
    whether libgcrypt was asked. *)
Fixpoint crypto_init_calls (answers : list bool) (crypto_init_check : Z)
  : list (Z * bool) :=
  match answers with
  | [] => []
  | ok :: rest =>
      let r := crypto_init ok crypto_init_check in
      (fst (fst r), snd r) :: crypto_init_calls rest (snd (fst r))
  end.

(** ** The expressions verification works with *)

(** The public key, digest and signature expressions that [_aacs_verify]
    builds from its arguments. *)
Definition verify_key (q_x q_y : list Z) : sexp :=
  sexp_key_fmt ([0x04] ++ take 20 q_x ++ take 20 q_y) None.

Definition verify_digest (g : gcrypt) (data : list Z) (len : nat) : sexp :=
  sexp_data_fmt (gcry_mpi_scan (md_sha1 g (take len data)) 20).

Definition verify_sig (signature : list Z) : sexp :=
  sexp_sig_fmt (gcry_mpi_scan signature 20) (gcry_mpi_scan (drop 20 signature) 20).

(** All that [_aacs_verify] needs to report success: the three
    expressions are built and [gcry_pk_verify] accepts them. *)
Definition verify_ok (g : gcrypt) (signature q_x q_y data : list Z) (len : nat) : Prop :=
  sexp_build g (verify_key q_x q_y) = 0
  /\ sexp_build g (verify_digest g data len) = 0
  /\ sexp_build g (verify_sig signature) = 0
  /\ pk_verify g (Some (verify_sig signature)) (Some (verify_digest g data len))
               (Some (verify_key q_x q_y)) = 0.

(** ** The specification's view of certificate verification *)

(** The licensing authority's fixed public key, as a public-key
    expression on the AACS curve. *)
Definition la_public_key : sexp :=
  sexp_key_fmt ([0x04] ++ aacs_la_pubkey_x ++ aacs_la_pubkey_y) None.

(** The SHA-1 digest of certificate bytes 0..52, as a number. *)
Definition cert_digest (g : gcrypt) (cert : list Z) : sexp :=
  sexp_data_fmt (be_to_Z (take 20 (md_sha1 g (take 52 cert)))).

(** The 40-byte signature stored at offset 52: the numbers [r] at
    offsets 52..72 and [s] at offsets 72..92. *)
Definition cert_signature (cert : list Z) : sexp :=
  sexp_sig_fmt (be_to_Z (take 20 (drop 52 cert))) (be_to_Z (take 20 (drop 72 cert))).

(** "Verifying the 40-byte signature stored at offset 52 over
    certificate bytes 0..52 against the fixed licensing-authority root
    public key" succeeds: libgcrypt takes the three expressions and its
    ECDSA verification accepts them. *)
Definition cert_signature_verifies (g : gcrypt) (cert : list Z) : Prop :=
  sexp_build g la_public_key = 0
  /\ sexp_build g (cert_digest g cert) = 0
  /\ sexp_build g (cert_signature cert) = 0
  /\ pk_verify g (Some (cert_signature cert)) (Some (cert_digest g cert))
               (Some la_public_key) = 0.

(** A 92-byte certificate that carries the licensing authority's own
    public key, and a signature block made of two 20-byte numbers. *)
Definition la_key_cert : list Z :=
  [2; 0; 0; 0x5c] ++ replicate 8 0 ++ aacs_la_pubkey_x ++ aacs_la_pubkey_y
    ++ replicate 40 0.

Definition sample_signature (r s : Z) : list Z := be_bytes 20 r ++ be_bytes 20 s.

(** * Properties *)

(** ** Bytes *)

(** A property of one byte is decided by trying the 256 of them. *)
Lemma byte_forall (f : Z -> bool) :
  forallb f (map Z.of_nat (seq 0 256)) = true ->
  forall b, byte_ok b -> f b = true.
Proof.
  intros H b [Hlo Hhi].
  rewrite forallb_forall in H. apply H.
  apply in_map_iff. exists (Z.to_nat b). split; [lia|].
  apply in_seq. lia.
Qed.

Lemma byte_forall2 (f : Z -> Z -> bool) :
  forallb (fun a => forallb (f a) (map Z.of_nat (seq 0 256)))
          (map Z.of_nat (seq 0 256)) = true ->
  forall a b, byte_ok a -> byte_ok b -> f a b = true.
Proof.
  intros H a b Ha Hb.
  apply (byte_forall (f a)); [|exact Hb].
  apply (byte_forall (fun a => forallb (f a) (map Z.of_nat (seq 0 256)))); assumption.
Qed.

Lemma be_bytes_length n a : length (be_bytes n a) = n.
Proof.
  revert a. induction n as [|n IH]; intros a; simpl; [reflexivity|].
  rewrite length_app, IH. simpl. lia.
Qed.

Lemma be_bytes_bytes n a : bytes (be_bytes n a).
Proof.
  revert a. induction n as [|n IH]; intros a; simpl.
  - constructor.
  - apply Forall_app. split; [apply IH|].
    constructor; [|constructor]. unfold byte_ok. apply Z.mod_pos_bound. lia.
Qed.

Lemma be_to_Z_app l1 l2 :
  be_to_Z (l1 ++ l2) = be_to_Z l1 * 2 ^ (8 * Z.of_nat (length l2)) + be_to_Z l2.
Proof.
  induction l1 as [|b t IH]; cbn [app be_to_Z]; [lia|].
  rewrite IH, length_app, Nat2Z.inj_add, Z.mul_add_distr_l, Z.pow_add_r by lia.
  ring.
Qed.

Lemma be_to_Z_range l : bytes l -> 0 <= be_to_Z l < 2 ^ (8 * Z.of_nat (length l)).
Proof.
  induction 1 as [|b t Hb Ht IH]; simpl length; simpl be_to_Z.
  - simpl. lia.
  - rewrite Nat2Z.inj_succ.
    replace (8 * Z.succ (Z.of_nat (length t))) with (8 + 8 * Z.of_nat (length t)) by lia.
    rewrite Z.pow_add_r by lia. change (2 ^ 8) with 256.
    unfold byte_ok in Hb. nia.
Qed.

Lemma be_to_Z_be_bytes n a : be_to_Z (be_bytes n a) = a mod 2 ^ (8 * Z.of_nat n).
Proof.
  revert a. induction n as [|n IH]; intros a.
  - simpl. now rewrite Z.mod_1_r.
  - cbn [be_bytes]. rewrite be_to_Z_app, IH. cbn [length be_to_Z].
    rewrite (Nat2Z.inj_succ n).
    replace (8 * Z.succ (Z.of_nat n)) with (8 * Z.of_nat n + 8) by lia.
    rewrite Z.pow_add_r by lia. change (2 ^ (8 * Z.of_nat 1)) with 256.
    change (2 ^ (8 * Z.of_nat 0)) with 1. change (2 ^ 8) with 256.
    set (m := 2 ^ (8 * Z.of_nat n)).
    assert (0 < m) by (apply Z.pow_pos_nonneg; lia).
    rewrite (Z.mul_comm m 256), Z.rem_mul_r by lia.
    lia.
Qed.

Lemma be_bytes_be_to_Z l : bytes l -> be_bytes (length l) (be_to_Z l) = l.
Proof.
  induction l as [|b t IH] using rev_ind; intros H; [reflexivity|].
  apply Forall_app in H as [Ht Hb]. inversion Hb as [|? ? Hb' _]; subst.
  rewrite length_app, Nat.add_comm. cbn [length Nat.add be_bytes].
  rewrite be_to_Z_app. cbn [length be_to_Z].
  change (2 ^ (8 * Z.of_nat 1)) with 256. change (2 ^ (8 * Z.of_nat 0)) with 1.
  unfold byte_ok in Hb'.
  replace ((be_to_Z t * 256 + (b * 1 + 0)) / 256) with (be_to_Z t)
    by (apply Z.div_unique with (r := b); lia).
  replace ((be_to_Z t * 256 + (b * 1 + 0)) mod 256) with b
    by (apply Z.mod_unique with (q := be_to_Z t); lia).
  now rewrite IH.
Qed.

(** ** The 128-bit shift *)

Ltac list16 l H :=
  do 16 (destruct l as [|? l]; [discriminate H|]);
  destruct l; [clear H|discriminate H].

Lemma shl_128_shl_list dst src :
  length dst = 16%nat -> length src = 16%nat ->
  _shl_128 dst src = fst (shl_list src).
Proof.
  intros Hd Hs. list16 dst Hd. list16 src Hs. reflexivity.
Qed.

(** The array [dst] is written in full before it is read. *)
Lemma shl_128_dst_irrelevant dst dst' src :
  length dst = 16%nat -> length dst' = 16%nat -> length src = 16%nat ->
  _shl_128 dst src = _shl_128 dst' src.
Proof.
  intros. rewrite !shl_128_shl_list; auto.
Qed.

Lemma shl_byte b :
  byte_ok b ->
  u8 (Z.lor (Z.shiftl b 1) 0) + 256 * Z.shiftr b 7 = 2 * b /\
  u8 (Z.lor (Z.shiftl b 1) 1) + 256 * Z.shiftr b 7 = 2 * b + 1 /\
  (Z.shiftr b 7 = 0 \/ Z.shiftr b 7 = 1).
Proof.
  intros Hb.
  pose proof (byte_forall
    (fun b => (u8 (Z.lor (Z.shiftl b 1) 0) + 256 * Z.shiftr b 7 =? 2 * b)
              && (u8 (Z.lor (Z.shiftl b 1) 1) + 256 * Z.shiftr b 7 =? 2 * b + 1)
              && ((Z.shiftr b 7 =? 0) || (Z.shiftr b 7 =? 1)))) as H.
  cbv beta in H. specialize (H ltac:(vm_compute; reflexivity) b Hb).
  rewrite !andb_true_iff, orb_true_iff, !Z.eqb_eq in H. tauto.
Qed.

Lemma shl_list_spec l :
  bytes l ->
  be_to_Z (fst (shl_list l)) + snd (shl_list l) * 2 ^ (8 * Z.of_nat (length l))
    = 2 * be_to_Z l
  /\ bytes (fst (shl_list l))
  /\ length (fst (shl_list l)) = length l
  /\ (snd (shl_list l) = 0 \/ snd (shl_list l) = 1).
Proof.
  induction 1 as [|b t Hb Ht IH]; cbn [shl_list fst snd be_to_Z length].
  - split; [reflexivity|]. split; [constructor|]. split; [reflexivity|]. now left.
  - destruct IH as (Hv & Hby & Hlen & Hc).
    destruct (shl_byte b Hb) as (H0 & H1 & Hs).
    set (P := 2 ^ (8 * Z.of_nat (length t))) in *.
    rewrite Hlen. fold P.
    replace (2 ^ (8 * Z.of_nat (S (length t)))) with (256 * P).
    2:{ unfold P. rewrite Nat2Z.inj_succ.
        replace (8 * Z.succ (Z.of_nat (length t))) with (8 + 8 * Z.of_nat (length t)) by lia.
        now rewrite Z.pow_add_r by lia. }
    split; [|split; [|split]].
    + destruct Hc as [Hc|Hc]; rewrite Hc in *; nia.
    + constructor; [|exact Hby]. unfold byte_ok, u8. apply Z.mod_pos_bound. lia.
    + reflexivity.
    + exact Hs.
Qed.

Lemma shl_128_value dst src :
  length dst = 16%nat -> length src = 16%nat -> bytes src ->
  be_to_Z (_shl_128 dst src) = (2 * be_to_Z src) mod 2 ^ 128
  /\ bytes (_shl_128 dst src) /\ length (_shl_128 dst src) = 16%nat.
Proof.
  intros Hd Hs Hb. rewrite shl_128_shl_list by assumption.
  destruct (shl_list_spec src Hb) as (Hv & Hby & Hlen & Hc).
  rewrite Hs in *. change (2 ^ (8 * Z.of_nat 16)) with (2 ^ 128) in Hv.
  repeat split; try assumption.
  pose proof (be_to_Z_range _ Hby) as Hr. rewrite Hlen in Hr.
  change (2 ^ (8 * Z.of_nat 16)) with (2 ^ 128) in Hr.
  apply Z.mod_unique with (q := snd (shl_list src)); lia.
Qed.

Lemma carry_bit a b :
  byte_ok a -> byte_ok b ->
  Z.testbit (u8 (Z.lor (Z.shiftl a 1) (Z.shiftr b 7))) 0 = Z.testbit b 7.
Proof.
  intros Ha Hb.
  pose proof (byte_forall2
    (fun a b => Bool.eqb (Z.testbit (u8 (Z.lor (Z.shiftl a 1) (Z.shiftr b 7))) 0)
                         (Z.testbit b 7))) as H.
  cbv beta in H. specialize (H ltac:(vm_compute; reflexivity) a b Ha Hb).
  now apply Bool.eqb_prop in H.
Qed.

Lemma bytesb_ok l : bytesb l = true -> bytes l.
Proof.
  unfold bytesb, bytes. induction l as [|b t IH]; cbn [forallb]; intros H.
  - constructor.
  - apply andb_true_iff in H as [Hb Ht]. constructor; [|now apply IH].
    unfold byte_ok. lia.
Qed.

Ltac bytes16 H :=
  repeat match type of H with
         | Forall _ (_ :: _) =>
             let Hb := fresh "Hb" in
             let Ht := fresh "Ht" in
             inversion H as [|? ? Hb Ht]; subst; clear H; rename Ht into H
         end.

Lemma shl_128_carry dst src :
  length dst = 16%nat -> length src = 16%nat -> bytes src ->
  carry_into_more_significant src (_shl_128 dst src)
  /\ Z.testbit (rd (_shl_128 dst src) 15) 0 = false.
Proof.
  intros Hd Hs Hb. rewrite shl_128_shl_list by assumption.
  list16 src Hs. unfold bytes in Hb. bytes16 Hb.
  cbn [shl_list fst snd]. split.
  - intros i Hi.
    do 15 (destruct i as [|i]; [cbn [rd nth]; now apply carry_bit|]).
    lia.
  - cbn [rd nth].
    match goal with |- Z.testbit (u8 (Z.lor (Z.shiftl ?b 1) 0)) 0 = false =>
      change 0 with (Z.shiftr 0 7) at 1; rewrite (carry_bit b 0) end;
      [reflexivity|assumption|unfold byte_ok; lia].
Qed.

(** C6, as worded. The carry of a byte does not go to the next less
    significant byte: with 0x80 in byte 14 alone, the low bit of byte 15
    stays clear (the carry arrives in byte 13). *)
Lemma shl_128_carry_not_downwards :
  ~ carry_into_less_significant
      [0;0;0;0;0;0;0;0;0;0;0;0;0;0;0x80;0]
      (_shl_128 (replicate 16 0) [0;0;0;0;0;0;0;0;0;0;0;0;0;0;0x80;0]).
Proof.
  intros H. specialize (H 14%nat ltac:(lia)). vm_compute in H. discriminate H.
Qed.

(** C6, amended. For every 16-byte array, [_shl_128] gives the 16 bytes
    of the 128-bit big-endian value shifted left by one bit, the carry
    out of byte 0 being dropped; the top bit of each byte arrives in the
    low bit of the next more significant byte (the one at the next
    lower index), and the low bit of byte 15 is clear. *)
Theorem shl_128_shifts_left dst src :
  length dst = 16%nat -> length src = 16%nat -> bytes src ->
  be_to_Z (_shl_128 dst src) = (2 * be_to_Z src) mod 2 ^ 128
  /\ length (_shl_128 dst src) = 16%nat
  /\ bytes (_shl_128 dst src)
  /\ carry_into_more_significant src (_shl_128 dst src)
  /\ Z.testbit (rd (_shl_128 dst src) 15) 0 = false.
Proof.
  intros Hd Hs Hb.
  destruct (shl_128_value dst src Hd Hs Hb) as (Hv & Hby & Hlen).
  destruct (shl_128_carry dst src Hd Hs Hb) as (Hc & H15).
  auto.
Qed.

Lemma shl_128_shifts_left_witness :
  let src := [0x80;0;0;0;0;0;0;0;0;0;0;0;0;0;0x80;0x81] in
  let dst := replicate 16 0xAA in
  be_to_Z (_shl_128 dst src) = (2 * be_to_Z src) mod 2 ^ 128
  /\ length (_shl_128 dst src) = 16%nat
  /\ bytes (_shl_128 dst src)
  /\ carry_into_more_significant src (_shl_128 dst src)
  /\ Z.testbit (rd (_shl_128 dst src) 15) 0 = false.
Proof.
  intros src dst. apply (shl_128_shifts_left dst src).
  - reflexivity.
  - reflexivity.
  - apply bytesb_ok. reflexivity.
Defined.

(** ** AES-G3 *)

Lemma xor_loop_xor_bytes dst src :
  length dst = 16%nat -> length src = 16%nat ->
  xor_loop 16 0 dst src = xor_bytes dst src.
Proof.
  intros Hd Hs. list16 dst Hd. list16 src Hs. reflexivity.
Qed.

Lemma aesg3_run g K inc :
  _aesg3 g K inc = (aesg3_spec g K inc, [EvCipherDecrypt K (aesg3_seed_inc inc)]).
Proof.
  unfold _aesg3, aesg3_spec.
  change (<[15%nat:=u8 (rd aesg3_seed 15 + inc)]> aesg3_seed) with (aesg3_seed_inc inc).
  unfold bind, gcry_cipher_decrypt, ret. cbn [app].
  rewrite xor_loop_xor_bytes; [reflexivity|apply cipher_decrypt_len|reflexivity].
Qed.

(** C4. For every key [K] and increment [inc], [_aesg3] gives
    AES-128-ECB-decrypt(K, seed') XOR seed', where seed' is the constant
    7B103C5DCB08C4E51A27B01799053BD9 with its last byte incremented by
    [inc] modulo 256, at the cost of that one decryption; [crypto_aesg3]
    fills [lsubk] with increment 0, [pk] with 1 and [rsubk] with 2, and
    neither computes nor decrypts anything for an output that is
    [NULL]. *)
Theorem aesg3_outputs g K :
  (forall inc,
      _aesg3 g K inc = (aesg3_spec g K inc, [EvCipherDecrypt K (aesg3_seed_inc inc)]))
  /\ (forall lsubk rsubk pk,
         crypto_aesg3 g K lsubk rsubk pk =
         ((aesg3_requested g K lsubk 0, aesg3_requested g K rsubk 2,
           aesg3_requested g K pk 1),
          aesg3_calls K lsubk 0 ++ aesg3_calls K pk 1 ++ aesg3_calls K rsubk 2)).
Proof.
  split; [apply aesg3_run|].
  intros lsubk rsubk pk. unfold crypto_aesg3.
  destruct lsubk, rsubk, pk; rewrite ?aesg3_run; reflexivity.
Qed.

(** ** The CMAC subkey *)

Lemma lxor_byte a b : byte_ok a -> byte_ok b -> byte_ok (Z.lxor a b).
Proof.
  intros Ha Hb.
  pose proof (byte_forall2
    (fun a b => (0 <=? Z.lxor a b) && (Z.lxor a b <? 256))) as H.
  cbv beta in H. specialize (H ltac:(vm_compute; reflexivity) a b Ha Hb).
  unfold byte_ok. lia.
Qed.

Lemma lxor_low_byte A l m :
  byte_ok l -> byte_ok m -> Z.lxor (A * 256 + l) m = A * 256 + Z.lxor l m.
Proof.
  intros Hl Hm. pose proof (lxor_byte l m Hl Hm) as Hx.
  unfold byte_ok in *.
  apply Z.bits_inj'. intros n Hn. rewrite Z.lxor_spec.
  destruct (Z.lt_ge_cases n 8) as [Hlt|Hge].
  - rewrite <- (Z.mod_pow2_bits_low (A * 256 + l) 8 n) by lia.
    rewrite <- (Z.mod_pow2_bits_low (A * 256 + Z.lxor l m) 8 n) by lia.
    change (2 ^ 8) with 256.
    rewrite !(Z.add_comm (A * 256)), !Z.mod_add, !Z.mod_small by lia.
    now rewrite Z.lxor_spec.
  - replace n with (n - 8 + 8) by lia.
    rewrite <- !Z.div_pow2_bits by lia. change (2 ^ 8) with 256.
    rewrite !(Z.add_comm (A * 256)), !Z.div_add, !Z.div_small by lia.
    now rewrite Z.bits_0, xorb_false_r.
Qed.

Lemma msb_byte b : byte_ok b -> (Z.land b 0x80 =? 0) = negb (Z.testbit b 7).
Proof.
  intros Hb.
  pose proof (byte_forall
    (fun b => Bool.eqb (Z.land b 0x80 =? 0) (negb (Z.testbit b 7)))) as H.
  cbv beta in H. specialize (H ltac:(vm_compute; reflexivity) b Hb).
  now apply Bool.eqb_prop in H.
Qed.

(** The test [key[0] & 0x80] reads the top bit of the 128-bit value. *)
Lemma msb_128 l :
  length l = 16%nat -> bytes l ->
  (Z.land (rd l 0) 0x80 =? 0) = negb (Z.testbit (be_to_Z l) 127).
Proof.
  intros Hl Hb. destruct l as [|b t]; [discriminate Hl|].
  inversion Hb as [|? ? Hb0 Ht]; subst.
  cbn [rd nth]. rewrite (msb_byte b Hb0). f_equal.
  cbn [be_to_Z]. injection Hl as Hl. rewrite Hl.
  change (2 ^ (8 * Z.of_nat 15)) with (2 ^ 120).
  pose proof (be_to_Z_range t Ht) as Hr. rewrite Hl in Hr.
  change (2 ^ (8 * Z.of_nat 15)) with (2 ^ 120) in Hr.
  change 127 with (7 + 120). rewrite <- Z.div_pow2_bits by lia.
  rewrite Z.add_comm, Z.div_add, Z.div_small by lia. reflexivity.
Qed.

(** XOR into the last byte is XOR into the low byte of the value. *)
Lemma xor_last_byte l m :
  length l = 16%nat -> bytes l -> byte_ok m ->
  be_to_Z (<[15%nat := Z.lxor (rd l 15) m]> l) = Z.lxor (be_to_Z l) m
  /\ bytes (<[15%nat := Z.lxor (rd l 15) m]> l)
  /\ length (<[15%nat := Z.lxor (rd l 15) m]> l) = 16%nat.
Proof.
  intros Hl Hb Hm. list16 l Hl. unfold bytes in Hb.
  cbn [rd nth]. cbn -[Z.lxor be_to_Z].
  match goal with
  | |- be_to_Z (?a0 :: ?a1 :: ?a2 :: ?a3 :: ?a4 :: ?a5 :: ?a6 :: ?a7 :: ?a8 :: ?a9
                 :: ?a10 :: ?a11 :: ?a12 :: ?a13 :: ?a14 :: [Z.lxor ?a15 m]) = _ /\ _ =>
      change (be_to_Z ([a0; a1; a2; a3; a4; a5; a6; a7; a8; a9; a10; a11; a12; a13; a14]
                       ++ [Z.lxor a15 m])
              = Z.lxor (be_to_Z ([a0; a1; a2; a3; a4; a5; a6; a7; a8; a9; a10; a11;
                                  a12; a13; a14] ++ [a15])) m
              /\ bytes [a0; a1; a2; a3; a4; a5; a6; a7; a8; a9; a10; a11; a12; a13; a14;
                        Z.lxor a15 m]
              /\ 16%nat = 16%nat)
  end.
  bytes16 Hb.
  rewrite !be_to_Z_app. cbn [be_to_Z length].
  change (2 ^ (8 * Z.of_nat 1)) with 256. change (2 ^ (8 * Z.of_nat 0)) with 1.
  rewrite !Z.mul_1_r, !Z.add_0_r.
  split; [|split; [|reflexivity]].
  - symmetry. now apply lxor_low_byte.
  - unfold bytes. repeat (constructor; [assumption|]).
    constructor; [now apply lxor_byte|constructor].
Qed.

Lemma replicate_zero_bytes n : bytes (replicate n 0).
Proof.
  induction n; cbn [replicate]; constructor; [unfold byte_ok; lia|assumption].
Qed.

(** [K1] as the code computes it is the subkey of [L] *)
Lemma cmac_key_k1 g aes_key k1 k2 :
  length k1 = 16%nat -> length k2 = 16%nat ->
  fst (value (_cmac_key g aes_key k1 k2))
  = be_bytes 16 (cmac_subkey (be_to_Z (cipher_encrypt g aes_key (replicate 16 0))))
  /\ calls (_cmac_key g aes_key k1 k2) = [EvCipherEncrypt aes_key (replicate 16 0)].
Proof.
  intros Hk1 Hk2. unfold _cmac_key, bind, gcry_cipher_encrypt, ret, value, calls.
  cbn [fst snd app]. split; [|reflexivity].
  set (Lb := cipher_encrypt g aes_key (replicate 16 0)).
  assert (HLl : length Lb = 16%nat) by apply cipher_encrypt_len.
  assert (HLb : bytes Lb) by apply cipher_encrypt_bytes.
  destruct (shl_128_value k1 Lb Hk1 HLl HLb) as (Hv & Hby & Hlen).
  rewrite (msb_128 Lb HLl HLb). unfold cmac_subkey.
  destruct (Z.testbit (be_to_Z Lb) 127); cbn [negb].
  - destruct (xor_last_byte (_shl_128 k1 Lb) 0x87 Hlen Hby ltac:(unfold byte_ok; lia))
      as (Hx & Hxb & Hxl).
    rewrite <- Hv, <- Hx, <- Hxl at 1. now rewrite be_bytes_be_to_Z.
  - rewrite Z.lxor_0_r, <- Hv, <- Hlen at 1. now rewrite be_bytes_be_to_Z.
Qed.

(** C5. For every 16-byte block [data] and AES key, [crypto_aes_cmac_16]
    returns AES-128-ECB-encrypt(aes_key, data XOR K1), where K1 is the
    16-byte encoding of [cmac_subkey L] and L is the encryption of the
    all-zero block: L shifted left by one bit in 128 bits, XORed with
    0x87 in its last byte exactly when the top bit of L is set. The two
    encryptions are the only calls made. *)
Theorem cmac_16_correct g data aes_key :
  length data = 16%nat ->
  let L := be_to_Z (cipher_encrypt g aes_key (replicate 16 0)) in
  let K1 := be_bytes 16 (cmac_subkey L) in
  crypto_aes_cmac_16 g data aes_key
  = (cipher_encrypt g aes_key (xor_bytes data K1),
     [EvCipherEncrypt aes_key (replicate 16 0);
      EvCipherEncrypt aes_key (xor_bytes data K1)]).
Proof.
  intros Hd L K1.
  destruct (cmac_key_k1 g aes_key (replicate 16 0) (replicate 16 0) eq_refl eq_refl)
    as (Hk & Hc).
  unfold crypto_aes_cmac_16, bind.
  destruct (_cmac_key g aes_key (replicate 16 0) (replicate 16 0)) as [[k1 k2] log].
  unfold value, calls in Hk, Hc. cbn [fst snd] in Hk, Hc. subst k1 log.
  cbn [fst]. fold L. fold K1.
  rewrite xor_loop_xor_bytes.
  - rewrite firstn_all2 by lia. reflexivity.
  - rewrite length_take. lia.
  - apply be_bytes_length.
Qed.

Lemma cmac_16_correct_witness :
  let g := fake_gcrypt fake_sha1 (fun _ => 0) (fake_sign 5 7) (fake_verify 5 7) in
  let data := map Z.of_nat (seq 0 16) in
  let aes_key := map Z.of_nat (seq 100 16) in
  let L := be_to_Z (cipher_encrypt g aes_key (replicate 16 0)) in
  let K1 := be_bytes 16 (cmac_subkey L) in
  crypto_aes_cmac_16 g data aes_key
  = (cipher_encrypt g aes_key (xor_bytes data K1),
     [EvCipherEncrypt aes_key (replicate 16 0);
      EvCipherEncrypt aes_key (xor_bytes data K1)]).
Proof.
  intros g data aes_key. apply (cmac_16_correct g data aes_key). reflexivity.
Defined.

(** ** Verification and certificates *)

(** [_aacs_verify] reads 40 bytes of [signature], and [len] of [data]. *)
Lemma aacs_verify_slices g signature q_x q_y data len :
  _aacs_verify g signature q_x q_y data len
  = _aacs_verify g (take 40 signature) q_x q_y (take len data) len.
Proof.
  unfold _aacs_verify, _aacs_sexp_sha1, _aacs_sexp_signature, gcry_mpi_scan.
  rewrite !take_drop_commute, !take_take, Nat.min_id. reflexivity.
Qed.

Lemma MKINT_BE16_field cert :
  bytes cert -> (4 <= length cert)%nat ->
  MKINT_BE16 (drop 2 cert) = cert_length_field cert.
Proof.
  intros Hb Hl. unfold cert_length_field.
  do 4 (destruct cert as [|? cert]; [cbn in Hl; lia|]).
  unfold bytes in Hb. bytes16 Hb.
  cbn [drop take]. unfold MKINT_BE16. cbn [rd nth be_to_Z length].
  change (2 ^ (8 * Z.of_nat 1)) with 256. change (2 ^ (8 * Z.of_nat 0)) with 1.
  match goal with |- Z.lor (Z.shiftl ?a 8) ?b = _ =>
    pose proof (byte_forall2 (fun a b => Z.lor (Z.shiftl a 8) b =? a * 256 + (b * 1 + 0))) as H;
    cbv beta in H; specialize (H ltac:(vm_compute; reflexivity) a b) end.
  apply Z.eqb_eq. apply H; assumption.
Qed.

Lemma verify_cert_bool g cert :
  value (crypto_aacs_verify_cert g cert) = 0 \/ value (crypto_aacs_verify_cert g cert) = 1.
Proof.
  unfold crypto_aacs_verify_cert, crypto_aacs_verify_aacsla, bind, ret, lnot, value.
  destruct (negb _); [now left|].
  destruct (_aacs_verify _ _ _ _ _ _) as [err log]. cbn [fst].
  destruct (err =? 0); auto.
Qed.

Lemma verify_cert_typed g cert :
  (ok <- crypto_aacs_verify_cert g cert ;; if lnot ok =? 0 then ret 1 else ret 0)
  = crypto_aacs_verify_cert g cert.
Proof.
  pose proof (verify_cert_bool g cert) as H. unfold bind, ret, value in *.
  destruct (crypto_aacs_verify_cert g cert) as [ok log]. cbn [fst] in H.
  destruct H as [-> | ->]; cbn; now rewrite app_nil_r.
Qed.

(** C8. For every 92-byte certificate, [crypto_aacs_verify_host_cert]
    returns 0 without any call to libgcrypt when the type byte at
    offset 0 is not 0x02, and [crypto_aacs_verify_drive_cert] does so
    when it is not 0x01; when the type byte matches, each returns what
    [crypto_aacs_verify_cert] returns on the same buffer, doing the
    same work. *)
Theorem verify_typed_cert g cert :
  length cert = 92%nat ->
  (rd cert 0 <> 0x02 -> crypto_aacs_verify_host_cert g cert = (0, []))
  /\ (rd cert 0 = 0x02 ->
      crypto_aacs_verify_host_cert g cert = crypto_aacs_verify_cert g cert)
  /\ (rd cert 0 <> 0x01 -> crypto_aacs_verify_drive_cert g cert = (0, []))
  /\ (rd cert 0 = 0x01 ->
      crypto_aacs_verify_drive_cert g cert = crypto_aacs_verify_cert g cert).
Proof.
  intros _. unfold crypto_aacs_verify_host_cert, crypto_aacs_verify_drive_cert.
  rewrite !verify_cert_typed.
  repeat split; intros H.
  - apply Z.eqb_neq in H. now rewrite H.
  - now rewrite H.
  - apply Z.eqb_neq in H. now rewrite H.
  - now rewrite H.
Qed.

Lemma verify_typed_cert_witness :
  let g := fake_gcrypt fake_sha1 (fun _ => 0) (fake_sign 5 7) (fake_verify 5 7) in
  let cert := sample_cert 2 in
  (rd cert 0 <> 0x02 -> crypto_aacs_verify_host_cert g cert = (0, []))
  /\ (rd cert 0 = 0x02 ->
      crypto_aacs_verify_host_cert g cert = crypto_aacs_verify_cert g cert)
  /\ (rd cert 0 <> 0x01 -> crypto_aacs_verify_drive_cert g cert = (0, []))
  /\ (rd cert 0 = 0x01 ->
      crypto_aacs_verify_drive_cert g cert = crypto_aacs_verify_cert g cert).
Proof.
  intros g cert. apply (verify_typed_cert g cert). reflexivity.
Defined.

(** ** Signing *)

Lemma sign_block_60 (nonce point : list Z) :
  take 60 (take 20 nonce ++ take 40 point) = take 20 nonce ++ take 40 point.
Proof.
  apply firstn_all2. rewrite length_app, !length_take. lia.
Qed.

(** C9, as worded. Sign does not return an error: a call in which the
    signing fails and a call in which it succeeds, with the same
    arguments, can hand the same buffer back to the caller, who gets
    nothing else. *)
Lemma sign_does_not_report_failure : ~ sign_reports_failure.
Proof.
  intros [decode H].
  pose (r := 2 ^ 159 + 5). pose (s := 2 ^ 159 + 7).
  pose (g_ok := fake_gcrypt fake_sha1 (fun _ => 0) (fake_sign r s) (fake_verify r s)).
  pose (g_fail := fake_gcrypt fake_sha1 (fun _ => 0) fake_sign_error (fake_verify r s)).
  pose (cert := sample_cert 2). pose (priv_key := be_bytes 20 69).
  pose (nonce := replicate 20 1). pose (point := replicate 40 2).
  pose (signature := be_bytes 20 r ++ be_bytes 20 s).
  pose proof (H g_ok cert priv_key signature nonce point) as Hok.
  pose proof (H g_fail cert priv_key signature nonce point) as Hfail.
  assert (E : value (crypto_aacs_sign g_ok cert priv_key signature nonce point)
              = value (crypto_aacs_sign g_fail cert priv_key signature nonce point))
    by (vm_compute; reflexivity).
  rewrite E in Hok.
  assert (Hf : sign_fails g_fail cert priv_key nonce point)
    by (right; right; vm_compute; discriminate).
  apply Hfail, Hok in Hf.
  destruct Hf as [Hf|[Hf|Hf]]; apply Hf; vm_compute; reflexivity.
Qed.

(** C9, amended. Whenever the construction of the key or of the digest,
    or the signing itself, fails inside [crypto_aacs_sign], no signature
    is produced: the 40-byte output buffer is left as it was. The
    function returns nothing, so the failure is not reported to the
    caller. *)
Theorem sign_failure_writes_nothing g cert priv_key signature nonce point :
  sign_fails g cert priv_key nonce point ->
  value (crypto_aacs_sign g cert priv_key signature nonce point) = Some signature.
Proof.
  unfold sign_fails, sign_key, sign_digest, crypto_aacs_sign, _aacs_sexp_key,
    _aacs_sexp_sha1, gcry_sexp_build, gcry_md_hash_buffer, gcry_pk_sign,
    bind, ret, value.
  rewrite sign_block_60.
  set (key := sexp_key_fmt _ _). set (dig := sexp_data_fmt _).
  intros H.
  destruct (sexp_build g key =? 0) eqn:Ek; cbn [fst snd]; rewrite Ek;
    [|reflexivity].
  destruct (sexp_build g dig =? 0) eqn:Ed; cbn [fst snd]; rewrite Ed;
    [|reflexivity].
  cbn [fst snd].
  destruct (pk_sign g (Some dig) (Some key)) as [e sg] eqn:Es. cbn [fst snd] in *.
  destruct (e =? 0) eqn:Ee; cbn [fst snd]; [|reflexivity].
  apply Z.eqb_eq in Ek, Ed, Ee. exfalso. destruct H as [H|[H|H]]; auto.
Qed.

Lemma sign_failure_writes_nothing_witness :
  let g := fake_gcrypt fake_sha1 fake_build_no_private (fake_sign 5 7) (fake_verify 5 7) in
  value (crypto_aacs_sign g (sample_cert 2) (be_bytes 20 69) (replicate 40 0xAA)
                          (replicate 20 1) (replicate 40 2))
  = Some (replicate 40 0xAA).
Proof.
  intros g.
  apply (sign_failure_writes_nothing g (sample_cert 2) (be_bytes 20 69) (replicate 40 0xAA)
                                     (replicate 20 1) (replicate 40 2)).
  left. vm_compute. discriminate.
Defined.

(** ** Minimal encodings *)

Lemma mpi_usg_length a k :
  0 <= a < 2 ^ (8 * Z.of_nat k) -> (length (mpi_usg a) <= k)%nat.
Proof.
  intros [Hlo Hhi]. unfold mpi_usg, mpi_get_nbits. rewrite be_bytes_length.
  destruct (a <=? 0) eqn:E.
  - change (Z.to_nat ((0 + 7) / 8)) with 0%nat. lia.
  - apply Z.leb_gt in E.
    assert (Z.log2 a < 8 * Z.of_nat k) by (apply Z.log2_lt_pow2; lia).
    assert ((Z.log2 a + 1 + 7) / 8 < Z.of_nat k + 1).
    { apply Z.div_lt_upper_bound; lia. }
    lia.
Qed.

Lemma mpi_usg_value a : 0 <= a -> be_to_Z (mpi_usg a) = a.
Proof.
  intros Ha. unfold mpi_usg, mpi_get_nbits. rewrite be_to_Z_be_bytes.
  destruct (a <=? 0) eqn:E.
  - apply Z.leb_le in E. replace a with 0 by lia. reflexivity.
  - apply Z.leb_gt in E. apply Z.mod_small. split; [lia|].
    pose proof (Z.log2_nonneg a) as Hl.
    rewrite Z2Nat.id by (apply Z.div_pos; lia).
    apply Z.lt_le_trans with (2 ^ (Z.log2 a + 1)).
    + apply Z.log2_spec in E. lia.
    + apply Z.pow_le_mono_r; [lia|].
      pose proof (Z.mul_div_le (Z.log2 a + 1 + 7) 8 ltac:(lia)).
      pose proof (Z.mod_pos_bound (Z.log2 a + 1 + 7) 8 ltac:(lia)).
      pose proof (Z.div_mod (Z.log2 a + 1 + 7) 8 ltac:(lia)).
      lia.
Qed.

Lemma be_bytes_split m k a :
  be_bytes (m + k) a = be_bytes m (a / 256 ^ Z.of_nat k) ++ be_bytes k a.
Proof.
  revert a. induction k as [|k IH]; intros a.
  - rewrite Nat.add_0_r. cbn [be_bytes Z.of_nat]. now rewrite Z.pow_0_r, Z.div_1_r, app_nil_r.
  - rewrite Nat.add_succ_r. cbn [be_bytes]. rewrite IH, <- app_assoc.
    rewrite Nat2Z.inj_succ, Z.pow_succ_r by lia.
    now rewrite Z.div_div by (try apply Z.pow_pos_nonneg; lia).
Qed.

(** The last [k] bytes of an encoding are the encoding in [k] bytes. *)
Lemma be_bytes_drop n k a :
  (k <= n)%nat -> drop (n - k) (be_bytes n a) = be_bytes k a.
Proof.
  intros H.
  replace (be_bytes n a) with (be_bytes ((n - k) + k) a) by (f_equal; lia).
  rewrite be_bytes_split. apply drop_app_length'. now rewrite be_bytes_length.
Qed.

(** ** The bus key *)

Lemma get_affine_range P ctx x y :
  0 < ctx_p ctx ->
  _gcry_mpi_ec_get_affine P ctx = Some (x, y) ->
  0 <= x < ctx_p ctx /\ 0 <= y < ctx_p ctx.
Proof.
  intros Hp. unfold _gcry_mpi_ec_get_affine.
  destruct (_ =? 0); [discriminate|].
  intros [= <- <-]. split; apply Z.mod_pos_bound; assumption.
Qed.

Lemma bus_key_x_range priv_key drive_key_point :
  0 <= bus_key_x priv_key drive_key_point < 2 ^ (8 * Z.of_nat 20).
Proof.
  unfold bus_key_x.
  set (ctx := _gcry_mpi_ec_init _ _).
  assert (Hp : 0 < ctx_p ctx) by reflexivity.
  assert (Hb : ctx_p ctx < 2 ^ (8 * Z.of_nat 20)) by reflexivity.
  destruct (_gcry_mpi_ec_get_affine _ ctx) as [[x y]|] eqn:E;
    cbn [default from_option id fst].
  - apply get_affine_range in E; [lia|assumption].
  - split; [lia|reflexivity].
Qed.

Lemma create_bus_key_unfold priv_key drive_key_point q_x_bin :
  crypto_create_bus_key priv_key drive_key_point q_x_bin
  = memcpy_src (write_at q_x_bin 0 (mpi_usg (bus_key_x priv_key drive_key_point)))
               (Z.of_nat (length (mpi_usg (bus_key_x priv_key drive_key_point))) - 16) 16.
Proof.
  pose proof (bus_key_x_range priv_key drive_key_point) as Hx.
  pose proof (mpi_usg_length _ 20 Hx) as Hn.
  unfold crypto_create_bus_key.
  change (fst (default (0, 0) _)) with (bus_key_x priv_key drive_key_point).
  unfold gcry_mpi_print.
  destruct (Nat.leb_spec (length (mpi_usg (bus_key_x priv_key drive_key_point))) 100);
    [reflexivity|lia].
Qed.

(** C10. In [crypto_create_bus_key] the 16 bytes of the bus key are
    read at offset n - 16 of the buffer that holds the minimal
    big-endian encoding of the x-coordinate, n being its length. When
    16 <= n the read is inside the encoding and gives its last 16 bytes
    (the low 16 bytes of the coordinate); when n < 16 the read starts
    before the buffer: the copy takes the error branch and no
    zero-padded value is produced. *)
Theorem bus_key_slice_bounds priv_key drive_key_point q_x_bin :
  length q_x_bin = 100%nat ->
  let x := bus_key_x priv_key drive_key_point in
  let n := length (mpi_usg x) in
  ((16 <= n)%nat ->
   crypto_create_bus_key priv_key drive_key_point q_x_bin
   = Some (drop (n - 16) (mpi_usg x))
   /\ drop (n - 16) (mpi_usg x) = low16 x)
  /\ ((n < 16)%nat ->
      crypto_create_bus_key priv_key drive_key_point q_x_bin = None
      /\ crypto_create_bus_key priv_key drive_key_point q_x_bin <> Some (low16 x)).
Proof.
  intros Hq x n.
  pose proof (bus_key_x_range priv_key drive_key_point) as Hx.
  pose proof (mpi_usg_length _ 20 Hx) as Hn.
  rewrite create_bus_key_unfold. fold x. fold n. fold x in Hn. fold n in Hn.
  unfold memcpy_src, write_at. rewrite take_0. cbn [app Nat.add].
  rewrite length_app, length_drop. fold n. split.
  - intros H16.
    destruct (Z.leb_spec 0 (Z.of_nat n - 16)); [|lia].
    destruct (Z.leb_spec (Z.of_nat n - 16 + Z.of_nat 16) (Z.of_nat (n + (length q_x_bin - n))));
      [|lia].
    cbn [andb]. replace (Z.to_nat (Z.of_nat n - 16)) with (n - 16)%nat by lia.
    split.
    + f_equal. rewrite drop_app_le by (fold n; lia).
      rewrite take_app_le by (rewrite length_drop; fold n; lia).
      apply firstn_all2. rewrite length_drop. fold n. lia.
    + unfold low16. subst n. unfold mpi_usg in *. rewrite be_bytes_length in *.
      now apply be_bytes_drop.
  - intros H16.
    destruct (Z.leb_spec 0 (Z.of_nat n - 16)); [lia|].
    cbn [andb]. split; [reflexivity|discriminate].
Qed.

Lemma bus_key_slice_bounds_witness :
  let priv_key := be_bytes 20 5 in
  let drive_key_point :=
    be_bytes 20 1 ++ be_bytes 20 0x3c3e82aa9de89a16212b37da110094bb6c0b740a in
  let q_x_bin := replicate 100 0xAA in
  let x := bus_key_x priv_key drive_key_point in
  let n := length (mpi_usg x) in
  ((16 <= n)%nat ->
   crypto_create_bus_key priv_key drive_key_point q_x_bin
   = Some (drop (n - 16) (mpi_usg x))
   /\ drop (n - 16) (mpi_usg x) = low16 x)
  /\ ((n < 16)%nat ->
      crypto_create_bus_key priv_key drive_key_point q_x_bin = None
      /\ crypto_create_bus_key priv_key drive_key_point q_x_bin <> Some (low16 x)).
Proof.
  intros priv_key drive_key_point q_x_bin.
  apply (bus_key_slice_bounds priv_key drive_key_point q_x_bin). reflexivity.
Defined.

(** C2, at a failing input. With the private key 1 and the peer point
    (1, 3c3e82aa...0a), which is on the curve, the product is the peer
    point itself and its x-coordinate 1 encodes in one byte: the code
    reads 16 bytes from 15 bytes before the buffer, where the claim
    says the bus key is 00..01. *)
Theorem bus_key_small_x_out_of_bounds q_x_bin :
  let priv_key := be_bytes 20 1 in
  let drive_key_point :=
    be_bytes 20 1 ++ be_bytes 20 0x3c3e82aa9de89a16212b37da110094bb6c0b740a in
  bus_key_x priv_key drive_key_point = 1
  /\ mpi_usg (bus_key_x priv_key drive_key_point) = [1]
  /\ low16 (bus_key_x priv_key drive_key_point) = [0;0;0;0;0;0;0;0;0;0;0;0;0;0;0;1]
  /\ crypto_create_bus_key priv_key drive_key_point q_x_bin = None.
Proof.
  intros priv_key drive_key_point.
  assert (Hx : bus_key_x priv_key drive_key_point = 1) by (vm_compute; reflexivity).
  rewrite create_bus_key_unfold, Hx.
  repeat split.
Qed.

(** ** The host key pair *)

(** C1, at a failing input. When [gcry_randomize] yields the scalar
    d = 69, the y-coordinate of d G is below 2^152: its minimal encoding
    has 19 bytes, which the code stores at offsets 20..38 of
    [host_key_point], leaving byte 39 as it was. The 40 bytes are not
    the coordinates of d G. *)
Theorem host_key_point_short_coordinate host_key_point :
  let random := be_bytes 20 69 in
  let X := 0x975c0e5d12ca2e594a18bdafcecf02d4587e0373 in
  let Y := 0x9f6cd801103a12fe2e442c635146b24369ceda in
  ec_mul aacs_ctx 69 aacs_G = Some (X, Y)
  /\ fst (crypto_create_host_key_pair random host_key_point) = random
  /\ snd (crypto_create_host_key_pair random host_key_point)
     = be_bytes 20 X ++ be_bytes 19 Y ++ drop 39 host_key_point
  /\ snd (crypto_create_host_key_pair random host_key_point)
     <> be_bytes 20 X ++ be_bytes 20 Y.
Proof.
  intros random X Y.
  assert (E : snd (crypto_create_host_key_pair random host_key_point)
              = be_bytes 20 X ++ be_bytes 19 Y ++ drop 19 (drop 20 host_key_point))
    by (vm_compute; reflexivity).
  rewrite drop_drop in E. change (20 + 19)%nat with 39%nat in E.
  split; [vm_compute; reflexivity|].
  split; [vm_compute; reflexivity|].
  split; [exact E|].
  rewrite E. intros H. apply (f_equal (fun l => nth 20 l 0)) in H.
  vm_compute in H. discriminate H.
Qed.

(** ** Initialisation *)

Lemma crypto_init_calls_set answers :
  crypto_init_calls answers 1 = (fun _ => (1, false)) <$> answers.
Proof.
  induction answers as [|ok rest IH]; [reflexivity|].
  cbn [crypto_init_calls fmap list_fmap]. change (crypto_init ok 1) with (1, 1, false).
  cbn [fst snd]. now rewrite IH.
Qed.

(** X1. Over any run of calls that starts with the static flag clear,
    [crypto_init] returns 1 from the first call in which the version
    check succeeds, and 0 before; libgcrypt is asked in a call exactly
    when no earlier call succeeded, so never again once initialised, and
    again after every failure. *)
Theorem crypto_init_latches answers k ok :
  answers !! k = Some ok ->
  crypto_init_calls answers 0 !! k
  = Some (if existsb id (take (S k) answers) then 1 else 0,
          negb (existsb id (take k answers))).
Proof.
  revert k. induction answers as [|a rest IH]; intros k H; [discriminate H|].
  cbn [crypto_init_calls]. destruct k as [|k].
  - destruct a; reflexivity.
  - change (rest !! k = Some ok) in H.
    match goal with |- (_ :: ?l) !! S k = ?r => change (l !! k = r) end.
    destruct a.
    + change (snd (fst (crypto_init true 0))) with 1.
      rewrite crypto_init_calls_set, list_lookup_fmap, H. reflexivity.
    + change (snd (fst (crypto_init false 0))) with 0.
      rewrite (IH k H). reflexivity.
Qed.

Lemma crypto_init_latches_witness :
  crypto_init_calls [false; true; false; false] 0 !! 2%nat
  = Some (if existsb id (take 3 [false; true; false; false]) then 1 else 0,
          negb (existsb id (take 2 [false; true; false; false]))).
Proof.
  apply (crypto_init_latches [false; true; false; false] 2 false). reflexivity.
Defined.

(** ** The second CMAC subkey *)

(** One subkey step, as [_cmac_key] does it twice: shift, then XOR 0x87
    into the last byte when the top bit of the input was set. *)
Lemma cmac_subkey_step dst src :
  length dst = 16%nat -> length src = 16%nat -> bytes src ->
  let k := _shl_128 dst src in
  let k := if Z.land (rd src 0) 0x80 =? 0 then k
           else <[15%nat := Z.lxor (rd k 15) 0x87]> k in
  be_to_Z k = cmac_subkey (be_to_Z src) /\ bytes k /\ length k = 16%nat.
Proof.
  intros Hd Hs Hb. cbv zeta.
  destruct (shl_128_value dst src Hd Hs Hb) as (Hv & Hby & Hlen).
  rewrite (msb_128 src Hs Hb). unfold cmac_subkey.
  destruct (Z.testbit (be_to_Z src) 127); cbn [negb].
  - destruct (xor_last_byte (_shl_128 dst src) 0x87 Hlen Hby ltac:(unfold byte_ok; lia))
      as (Hx & Hxb & Hxl).
    rewrite Hx, Hv. auto.
  - rewrite Z.lxor_0_r, Hv. auto.
Qed.

(** X2. [_cmac_key] leaves in [k2] the subkey of the subkey: with L the
    encryption of the all-zero block and K1 = subkey(L), the array [k2]
    holds the 16-byte encoding of subkey(K1), that is K1 shifted left by
    one bit in 128 bits and XORed with 0x87 when the top bit of K1 is
    set; both arrays come back as 16 bytes. *)
Theorem cmac_key_k2 g aes_key k1 k2 :
  length k1 = 16%nat -> length k2 = 16%nat ->
  let L := be_to_Z (cipher_encrypt g aes_key (replicate 16 0)) in
  let ks := value (_cmac_key g aes_key k1 k2) in
  be_to_Z (fst ks) = cmac_subkey L
  /\ snd ks = be_bytes 16 (cmac_subkey (cmac_subkey L))
  /\ length (fst ks) = 16%nat /\ length (snd ks) = 16%nat
  /\ bytes (fst ks) /\ bytes (snd ks).
Proof.
  intros Hk1 Hk2 L ks. subst ks L.
  unfold _cmac_key, bind, gcry_cipher_encrypt, ret, value. cbn [fst snd].
  set (Lb := cipher_encrypt g aes_key (replicate 16 0)).
  assert (HLl : length Lb = 16%nat) by apply cipher_encrypt_len.
  assert (HLb : bytes Lb) by apply cipher_encrypt_bytes.
  pose proof (cmac_subkey_step k1 Lb Hk1 HLl HLb) as H1. cbv zeta in H1.
  set (K1 := if Z.land (rd Lb 0) 128 =? 0 then _shl_128 k1 Lb
             else <[15%nat:=Z.lxor (rd (_shl_128 k1 Lb) 15) 135]> (_shl_128 k1 Lb)) in *.
  destruct H1 as (Hv1 & Hb1 & Hl1).
  pose proof (cmac_subkey_step k2 K1 Hk2 Hl1 Hb1) as H2. cbv zeta in H2.
  set (K2 := if Z.land (rd K1 0) 128 =? 0 then _shl_128 k2 K1
             else <[15%nat:=Z.lxor (rd (_shl_128 k2 K1) 15) 135]> (_shl_128 k2 K1)) in *.
  destruct H2 as (Hv2 & Hb2 & Hl2).
  repeat split; try assumption.
  rewrite <- Hv1, <- Hv2, <- Hl2 at 1. now rewrite be_bytes_be_to_Z.
Qed.

Lemma cmac_key_k2_witness :
  let g := fake_gcrypt fake_sha1 (fun _ => 0) (fake_sign 5 7) (fake_verify 5 7) in
  let aes_key := map Z.of_nat (seq 100 16) in
  let L := be_to_Z (cipher_encrypt g aes_key (replicate 16 0)) in
  let ks := value (_cmac_key g aes_key (replicate 16 0xAA) (replicate 16 0x55)) in
  be_to_Z (fst ks) = cmac_subkey L
  /\ snd ks = be_bytes 16 (cmac_subkey (cmac_subkey L))
  /\ length (fst ks) = 16%nat /\ length (snd ks) = 16%nat
  /\ bytes (fst ks) /\ bytes (snd ks).
Proof.
  intros g aes_key.
  apply (cmac_key_k2 g aes_key (replicate 16 0xAA) (replicate 16 0x55)); reflexivity.
Defined.

(** ** What verification asks of libgcrypt, and when it accepts *)

(** [_aacs_verify], one branch per [GCRY_VERIFY]. *)
Lemma aacs_verify_run g signature q_x q_y data len :
  let key := verify_key q_x q_y in
  let dig := verify_digest g data len in
  let sg := verify_sig signature in
  _aacs_verify g signature q_x q_y data len
  = if sexp_build g key =? 0 then
      if sexp_build g dig =? 0 then
        if sexp_build g sg =? 0 then
          (pk_verify g (Some sg) (Some dig) (Some key),
           [EvSexpBuild key; EvMdHash (take len data); EvSexpBuild dig; EvSexpBuild sg;
            EvPkVerify (Some sg) (Some dig) (Some key)])
        else (sexp_build g sg,
              [EvSexpBuild key; EvMdHash (take len data); EvSexpBuild dig; EvSexpBuild sg])
      else (sexp_build g dig, [EvSexpBuild key; EvMdHash (take len data); EvSexpBuild dig])
    else (sexp_build g key, [EvSexpBuild key]).
Proof.
  intros key dig sg.
  unfold _aacs_verify, _aacs_sexp_key, _aacs_sexp_sha1, _aacs_sexp_signature,
    gcry_sexp_build, gcry_md_hash_buffer, gcry_pk_verify, bind, ret.
  fold (verify_key q_x q_y). fold (verify_digest g data len). fold (verify_sig signature).
  fold key. fold dig. fold sg.
  destruct (sexp_build g key =? 0) eqn:Ek; cbn [fst snd app]; rewrite ?Ek; [|reflexivity].
  destruct (sexp_build g dig =? 0) eqn:Ed; cbn [fst snd app]; rewrite ?Ed; [|reflexivity].
  destruct (sexp_build g sg =? 0) eqn:Es; cbn [fst snd app]; rewrite ?Es; reflexivity.
Qed.

Lemma aacs_verify_zero g signature q_x q_y data len :
  value (_aacs_verify g signature q_x q_y data len) = 0
  <-> verify_ok g signature q_x q_y data len.
Proof.
  rewrite aacs_verify_run. unfold verify_ok, value. cbv zeta.
  destruct (Z.eqb_spec (sexp_build g (verify_key q_x q_y)) 0) as [Ek|Ek];
    [|cbn [fst]; tauto].
  destruct (Z.eqb_spec (sexp_build g (verify_digest g data len)) 0) as [Ed|Ed];
    [|cbn [fst]; tauto].
  destruct (Z.eqb_spec (sexp_build g (verify_sig signature)) 0) as [Es|Es];
    cbn [fst]; tauto.
Qed.

(** X4. [crypto_aacs_verify] answers 1 or 0, and 1 exactly when the
    public key read at offsets 12 and 32 of [cert], the SHA-1 digest of
    the first [len] bytes of [data] and the two 20-byte halves of
    [signature] were all turned into expressions and [gcry_pk_verify]
    returned 0 on them; any failure on the way gives 0. *)
Theorem crypto_aacs_verify_accepts g cert signature data len :
  let r := value (crypto_aacs_verify g cert signature data len) in
  (r = 1 <-> verify_ok g signature (drop 12 cert) (drop 32 cert) data len)
  /\ (r = 0 <-> ~ verify_ok g signature (drop 12 cert) (drop 32 cert) data len).
Proof.
  intros r. subst r.
  pose proof (aacs_verify_zero g signature (drop 12 cert) (drop 32 cert) data len) as H.
  unfold crypto_aacs_verify, bind, ret, value, lnot in *.
  destruct (_aacs_verify g signature (drop 12 cert) (drop 32 cert) data len) as [err log].
  cbn [fst] in *.
  destruct (Z.eqb_spec err 0) as [E|E]; split; split; intros H'; try tauto; discriminate.
Qed.

(** X5. Verifying against the licensing authority is verifying against a
    certificate that carries the authority's public key at offsets 12
    and 32: the two functions return the same value and make the same
    calls. *)
Theorem verify_aacsla_as_verify g cert signature data len :
  take 20 (drop 12 cert) = aacs_la_pubkey_x ->
  take 20 (drop 32 cert) = aacs_la_pubkey_y ->
  crypto_aacs_verify_aacsla g signature data len
  = crypto_aacs_verify g cert signature data len.
Proof.
  intros Hx Hy. unfold crypto_aacs_verify_aacsla, crypto_aacs_verify.
  rewrite !aacs_verify_run. unfold verify_key. now rewrite Hx, Hy.
Qed.

Lemma verify_aacsla_as_verify_witness :
  let g := fake_gcrypt fake_sha1 (fun _ => 0) (fake_sign 5 7) (fake_verify 5 7) in
  crypto_aacs_verify_aacsla g (sample_signature 5 7) [1; 2; 3] 3
  = crypto_aacs_verify g la_key_cert (sample_signature 5 7) [1; 2; 3] 3.
Proof.
  intros g.
  apply (verify_aacsla_as_verify g la_key_cert (sample_signature 5 7) [1; 2; 3] 3);
    reflexivity.
Defined.

(** ** Typed certificates, end to end *)

Lemma verify_aacsla_one g signature data len :
  value (crypto_aacs_verify_aacsla g signature data len) = 1
  <-> verify_ok g signature aacs_la_pubkey_x aacs_la_pubkey_y data len.
Proof.
  rewrite <- aacs_verify_zero.
  unfold crypto_aacs_verify_aacsla, bind, ret, value, lnot.
  destruct (_aacs_verify g signature aacs_la_pubkey_x aacs_la_pubkey_y data len)
    as [err log].
  cbn [fst]. destruct (Z.eqb_spec err 0); split; intros; try tauto; discriminate.
Qed.

Lemma verify_cert_one g cert :
  bytes cert -> (4 <= length cert)%nat ->
  value (crypto_aacs_verify_cert g cert) = 1
  <-> cert_length_field cert = 0x5c
      /\ verify_ok g (drop 52 cert) aacs_la_pubkey_x aacs_la_pubkey_y cert 52.
Proof.
  intros Hb Hl. rewrite <- verify_aacsla_one. unfold crypto_aacs_verify_cert.
  rewrite (MKINT_BE16_field cert Hb Hl).
  destruct (Z.eqb_spec (cert_length_field cert) 0x5c) as [E|E]; cbn [negb].
  - tauto.
  - split; [discriminate|tauto].
Qed.

Lemma verify_ok_cert g cert :
  verify_ok g (drop 52 cert) aacs_la_pubkey_x aacs_la_pubkey_y cert 52
  <-> cert_signature_verifies g cert.
Proof.
  unfold verify_ok, cert_signature_verifies, verify_key, verify_digest, verify_sig,
    la_public_key, cert_digest, cert_signature, gcry_mpi_scan.
  rewrite drop_drop. reflexivity.
Qed.

(** C7. For every 92-byte certificate, [crypto_aacs_verify_cert] returns
    0 without any call to libgcrypt when the big-endian 16-bit field at
    offset 2 is not 0x005c. When the field is 0x005c it returns the
    result of verifying the 40-byte signature stored at offset 52 over
    certificate bytes 0..52 against the licensing authority's fixed
    public key: 1 exactly when the key, the SHA-1 digest of bytes 0..52
    and the numbers at offsets 52..72 and 72..92 are taken by libgcrypt
    and its ECDSA verification accepts them, 0 in every other case; no
    byte of the certificate outside these is used. *)
Theorem verify_cert_length_gate g cert :
  bytes cert -> length cert = 92%nat ->
  (cert_length_field cert <> 0x5c ->
   crypto_aacs_verify_cert g cert = (0, []))
  /\ (cert_length_field cert = 0x5c ->
      (value (crypto_aacs_verify_cert g cert) = 1 <-> cert_signature_verifies g cert)
      /\ (value (crypto_aacs_verify_cert g cert) = 0 <-> ~ cert_signature_verifies g cert)
      /\ crypto_aacs_verify_cert g cert
         = crypto_aacs_verify_aacsla g (take 40 (drop 52 cert)) (take 52 cert) 52).
Proof.
  intros Hb Hl. split.
  - intros Hne. unfold crypto_aacs_verify_cert.
    rewrite (MKINT_BE16_field cert Hb) by lia.
    apply Z.eqb_neq in Hne. now rewrite Hne.
  - intros He.
    pose proof (verify_cert_one g cert Hb ltac:(lia)) as H1.
    rewrite verify_ok_cert in H1.
    pose proof (verify_cert_bool g cert) as H01.
    split; [tauto|]. split.
    + split.
      * intros H0 Hv. assert (H : value (crypto_aacs_verify_cert g cert) = 1) by tauto.
        rewrite H0 in H. discriminate H.
      * intros Hn. destruct H01 as [H0|H0]; [exact H0|]. exfalso. tauto.
    + unfold crypto_aacs_verify_cert.
      rewrite (MKINT_BE16_field cert Hb) by lia. rewrite He. cbn [Z.eqb negb Pos.eqb].
      unfold crypto_aacs_verify_aacsla.
      rewrite (aacs_verify_slices g (drop 52 cert)).
      rewrite (aacs_verify_slices g (take 40 (drop 52 cert))).
      rewrite !take_take. reflexivity.
Qed.

Lemma verify_cert_length_gate_witness :
  let g := fake_gcrypt fake_sha1 (fun _ => 0) (fake_sign 5 7) (fake_verify 5 7) in
  let cert := take 52 (sample_cert 2) ++ sample_signature 5 7 in
  (cert_length_field cert <> 0x5c ->
   crypto_aacs_verify_cert g cert = (0, []))
  /\ (cert_length_field cert = 0x5c ->
      (value (crypto_aacs_verify_cert g cert) = 1 <-> cert_signature_verifies g cert)
      /\ (value (crypto_aacs_verify_cert g cert) = 0 <-> ~ cert_signature_verifies g cert)
      /\ crypto_aacs_verify_cert g cert
         = crypto_aacs_verify_aacsla g (take 40 (drop 52 cert)) (take 52 cert) 52).
Proof.
  intros g cert. apply (verify_cert_length_gate g cert).
  - apply bytesb_ok. reflexivity.
  - reflexivity.
Defined.

(** X6. No buffer is accepted both as a host certificate and as a drive
    certificate: each of the two functions answers 0 or 1, and they
    never both answer 1 on the same bytes, whatever libgcrypt says about
    the signature. *)
Theorem host_drive_cert_exclusive g cert :
  (value (crypto_aacs_verify_host_cert g cert) = 0
   \/ value (crypto_aacs_verify_host_cert g cert) = 1)
  /\ (value (crypto_aacs_verify_drive_cert g cert) = 0
      \/ value (crypto_aacs_verify_drive_cert g cert) = 1)
  /\ ~ (value (crypto_aacs_verify_host_cert g cert) = 1
        /\ value (crypto_aacs_verify_drive_cert g cert) = 1).
Proof.
  unfold crypto_aacs_verify_host_cert, crypto_aacs_verify_drive_cert.
  rewrite !verify_cert_typed.
  pose proof (verify_cert_bool g cert) as Hb.
  destruct (Z.eqb_spec (rd cert 0) 0x02) as [E2|E2];
    destruct (Z.eqb_spec (rd cert 0) 0x01) as [E1|E1]; cbn [negb].
  - exfalso. rewrite E2 in E1. discriminate E1.
  - split; [exact Hb|]. split; [now left|]. intros [_ H]. discriminate H.
  - split; [now left|]. split; [exact Hb|]. intros [H _]. discriminate H.
  - split; [now left|]. split; [now left|]. intros [H _]. discriminate H.
Qed.

(** X7. A 92-byte buffer is accepted as a host certificate exactly when
    its type byte is 0x02, its length field is 0x005c, and the signature
    in its last 40 bytes verifies over its first 52 bytes against the
    licensing authority's fixed public key; as a drive certificate, the
    same with type byte 0x01. *)
Theorem typed_cert_accepted g cert :
  bytes cert -> length cert = 92%nat ->
  let signed := verify_ok g (drop 52 cert) aacs_la_pubkey_x aacs_la_pubkey_y cert 52 in
  (value (crypto_aacs_verify_host_cert g cert) = 1
   <-> rd cert 0 = 0x02 /\ cert_length_field cert = 0x5c /\ signed)
  /\ (value (crypto_aacs_verify_drive_cert g cert) = 1
      <-> rd cert 0 = 0x01 /\ cert_length_field cert = 0x5c /\ signed).
Proof.
  intros Hb Hl signed. subst signed.
  pose proof (verify_cert_one g cert Hb ltac:(lia)) as H1.
  unfold crypto_aacs_verify_host_cert, crypto_aacs_verify_drive_cert.
  rewrite !verify_cert_typed.
  split.
  - destruct (Z.eqb_spec (rd cert 0) 0x02) as [E|E]; cbn [negb].
    + tauto.
    + split; [discriminate|tauto].
  - destruct (Z.eqb_spec (rd cert 0) 0x01) as [E|E]; cbn [negb].
    + tauto.
    + split; [discriminate|tauto].
Qed.

Lemma typed_cert_accepted_witness :
  let g := fake_gcrypt fake_sha1 (fun _ => 0) (fake_sign 5 7) (fake_verify 5 7) in
  let cert := take 52 (sample_cert 2) ++ sample_signature 5 7 in
  let signed := verify_ok g (drop 52 cert) aacs_la_pubkey_x aacs_la_pubkey_y cert 52 in
  (value (crypto_aacs_verify_host_cert g cert) = 1
   <-> rd cert 0 = 0x02 /\ cert_length_field cert = 0x5c /\ signed)
  /\ (value (crypto_aacs_verify_drive_cert g cert) = 1
      <-> rd cert 0 = 0x01 /\ cert_length_field cert = 0x5c /\ signed).
Proof.
  intros g cert.
  apply (typed_cert_accepted g cert).
  - apply bytesb_ok. reflexivity.
  - reflexivity.
Defined.

(** ** Signing, when it succeeds *)

(** [crypto_aacs_sign], one branch per [GCRY_VERIFY]. *)
Lemma sign_run g cert priv_key signature nonce point :
  let key := sign_key cert priv_key in
  let dig := sign_digest g nonce point in
  let sgn := pk_sign g (Some dig) (Some key) in
  crypto_aacs_sign g cert priv_key signature nonce point
  = if sexp_build g key =? 0 then
      if sexp_build g dig =? 0 then
        if fst sgn =? 0 then
          (match gcry_sexp_nth_mpi (gcry_sexp_find_token "r" (snd sgn)) 1,
                 gcry_sexp_nth_mpi (gcry_sexp_find_token "s" (snd sgn)) 1 with
           | Some r, Some s =>
               Some (fst (gcry_mpi_print (fst (gcry_mpi_print signature 0 20 0 r)) 20 20 0 s))
           | _, _ => None
           end,
           [EvSexpBuild key; EvMdHash (take 20 nonce ++ take 40 point); EvSexpBuild dig;
            EvPkSign (Some dig) (Some key)])
        else (Some signature,
              [EvSexpBuild key; EvMdHash (take 20 nonce ++ take 40 point); EvSexpBuild dig;
               EvPkSign (Some dig) (Some key)])
      else (Some signature,
            [EvSexpBuild key; EvMdHash (take 20 nonce ++ take 40 point); EvSexpBuild dig])
    else (Some signature, [EvSexpBuild key]).
Proof.
  intros key dig sgn. subst sgn.
  unfold crypto_aacs_sign, _aacs_sexp_key, _aacs_sexp_sha1,
    gcry_sexp_build, gcry_md_hash_buffer, gcry_pk_sign, bind, ret.
  rewrite sign_block_60.
  fold (sign_key cert priv_key). fold (sign_digest g nonce point). fold key. fold dig.
  destruct (sexp_build g key =? 0) eqn:Ek; cbn [fst snd app]; rewrite ?Ek; [|reflexivity].
  destruct (sexp_build g dig =? 0) eqn:Ed; cbn [fst snd app]; rewrite ?Ed; [|reflexivity].
  cbn [fst snd app].
  destruct (pk_sign g (Some dig) (Some key)) as [e sg]. cbn [fst snd].
  destruct (e =? 0); [|reflexivity].
  destruct (gcry_sexp_nth_mpi (gcry_sexp_find_token "r" sg) 1);
    destruct (gcry_sexp_nth_mpi (gcry_sexp_find_token "s" sg) 1); reflexivity.
Qed.

(** A number of 153 to 160 bits has a 20-byte minimal encoding. *)
Lemma mpi_usg_full_width a :
  2 ^ 152 <= a < 2 ^ 160 -> mpi_usg a = be_bytes 20 a.
Proof.
  intros [Hlo Hhi]. unfold mpi_usg, mpi_get_nbits.
  destruct (Z.leb_spec a 0) as [H|H]; [lia|].
  assert (152 <= Z.log2 a) by (apply Z.log2_le_pow2; lia).
  assert (Z.log2 a < 160) by (apply Z.log2_lt_pow2; lia).
  replace ((Z.log2 a + 1 + 7) / 8) with 20; [reflexivity|].
  apply Z.div_unique with (r := Z.log2 a + 8 - 160); lia.
Qed.

(** The two [gcry_mpi_print] calls of [crypto_aacs_sign] on a 40-byte
    buffer, for encodings that fit their 20-byte field. *)
Lemma sign_prints signature r s :
  length signature = 40%nat ->
  (length (mpi_usg r) <= 20)%nat -> (length (mpi_usg s) <= 20)%nat ->
  fst (gcry_mpi_print (fst (gcry_mpi_print signature 0 20 0 r)) 20 20 0 s)
  = mpi_usg r ++ take (20 - length (mpi_usg r)) (drop (length (mpi_usg r)) signature)
    ++ mpi_usg s ++ drop (20 + length (mpi_usg s)) signature.
Proof.
  intros Hl Hr Hs. unfold gcry_mpi_print.
  destruct (Nat.leb_spec (length (mpi_usg r)) 20) as [_|]; [|lia].
  destruct (Nat.leb_spec (length (mpi_usg s)) 20) as [_|]; [|lia].
  cbn [fst]. unfold write_at. rewrite take_0, app_nil_l, Nat.add_0_l.
  set (er := mpi_usg r) in *. set (es := mpi_usg s) in *.
  rewrite take_app_ge by lia. rewrite drop_app_ge by lia.
  rewrite drop_drop, <- app_assoc. do 4 f_equal. lia.
Qed.

(** The buffer [crypto_aacs_sign] hands back, and the calls it makes,
    for [r] and [s] of full width. *)
Lemma sign_full_width g cert priv_key signature nonce point sg r s :
  length signature = 40%nat ->
  sexp_build g (sign_key cert priv_key) = 0 ->
  sexp_build g (sign_digest g nonce point) = 0 ->
  pk_sign g (Some (sign_digest g nonce point)) (Some (sign_key cert priv_key)) = (0, sg) ->
  gcry_sexp_nth_mpi (gcry_sexp_find_token "r" sg) 1 = Some r ->
  gcry_sexp_nth_mpi (gcry_sexp_find_token "s" sg) 1 = Some s ->
  2 ^ 152 <= r < 2 ^ 160 -> 2 ^ 152 <= s < 2 ^ 160 ->
  crypto_aacs_sign g cert priv_key signature nonce point
  = (Some (be_bytes 20 r ++ be_bytes 20 s),
     [EvSexpBuild (sign_key cert priv_key);
      EvMdHash (take 20 nonce ++ take 40 point);
      EvSexpBuild (sign_digest g nonce point);
      EvPkSign (Some (sign_digest g nonce point)) (Some (sign_key cert priv_key))]).
Proof.
  intros Hl Hk Hd Hsg Hr Hs Rr Rs.
  rewrite sign_run. cbv zeta. rewrite Hk, Hd, Hsg. cbn [fst snd Z.eqb]. rewrite Hr, Hs.
  rewrite sign_prints; rewrite ?mpi_usg_full_width by assumption;
    rewrite ?be_bytes_length; try lia.
  rewrite Nat.sub_diag, take_0. cbn [app].
  rewrite (drop_ge signature) by lia. now rewrite app_nil_r.
Qed.

(** Two 20-byte encodings, read the way [_aacs_sexp_signature] reads a
    signature. *)
Lemma verify_sig_full_width r s :
  0 <= r < 2 ^ 160 -> 0 <= s < 2 ^ 160 ->
  verify_sig (be_bytes 20 r ++ be_bytes 20 s) = sexp_sig_fmt r s.
Proof.
  intros Rr Rs. unfold verify_sig, gcry_mpi_scan.
  rewrite take_app_length' by now rewrite be_bytes_length.
  rewrite drop_app_length' by now rewrite be_bytes_length.
  rewrite firstn_all2 by (rewrite be_bytes_length; lia).
  rewrite !be_to_Z_be_bytes. change (2 ^ (8 * Z.of_nat 20)) with (2 ^ 160).
  now rewrite !Z.mod_small by lia.
Qed.

(** X8. When the key and digest expressions are built and
    [gcry_pk_sign] returns an expression whose [r] and [s] are numbers
    of 153 to 160 bits, [crypto_aacs_sign] overwrites the whole 40-byte
    buffer with the 20-byte big-endian encoding of [r] followed by that
    of [s], whatever the buffer held; [_aacs_sexp_signature], given that
    buffer, asks for the signature expression of exactly [r] and [s]
    and hands it back when it is built. *)
Theorem sign_then_parse g cert priv_key signature nonce point sg r s :
  length signature = 40%nat ->
  sexp_build g (sign_key cert priv_key) = 0 ->
  sexp_build g (sign_digest g nonce point) = 0 ->
  pk_sign g (Some (sign_digest g nonce point)) (Some (sign_key cert priv_key)) = (0, sg) ->
  gcry_sexp_nth_mpi (gcry_sexp_find_token "r" sg) 1 = Some r ->
  gcry_sexp_nth_mpi (gcry_sexp_find_token "s" sg) 1 = Some s ->
  2 ^ 152 <= r < 2 ^ 160 -> 2 ^ 152 <= s < 2 ^ 160 ->
  exists sig,
    value (crypto_aacs_sign g cert priv_key signature nonce point) = Some sig
    /\ sig = be_bytes 20 r ++ be_bytes 20 s
    /\ value (_aacs_sexp_signature g sig)
       = (sexp_build g (sexp_sig_fmt r s),
          if sexp_build g (sexp_sig_fmt r s) =? 0 then Some (sexp_sig_fmt r s) else None).
Proof.
  intros Hl Hk Hd Hsg Hr Hs Rr Rs.
  exists (be_bytes 20 r ++ be_bytes 20 s). split; [|split; [reflexivity|]].
  - now rewrite (sign_full_width g cert priv_key signature nonce point sg r s).
  - pose proof (verify_sig_full_width r s ltac:(lia) ltac:(lia)) as E.
    unfold verify_sig in E.
    unfold _aacs_sexp_signature, gcry_sexp_build, bind, ret, value. rewrite E.
    destruct (sexp_build g (sexp_sig_fmt r s) =? 0); reflexivity.
Qed.

Lemma sign_then_parse_witness :
  let r := 2 ^ 159 + 5 in
  let s := 2 ^ 159 + 7 in
  let g := fake_gcrypt fake_sha1 (fun _ => 0) (fake_sign r s) (fake_verify r s) in
  exists sig,
    value (crypto_aacs_sign g (sample_cert 2) (be_bytes 20 69) (replicate 40 0xAA)
                            (replicate 20 1) (replicate 40 2)) = Some sig
    /\ sig = be_bytes 20 r ++ be_bytes 20 s
    /\ value (_aacs_sexp_signature g sig)
       = (sexp_build g (sexp_sig_fmt r s),
          if sexp_build g (sexp_sig_fmt r s) =? 0 then Some (sexp_sig_fmt r s) else None).
Proof.
  intros r s g.
  apply (sign_then_parse g (sample_cert 2) (be_bytes 20 69) (replicate 40 0xAA)
           (replicate 20 1) (replicate 40 2) (snd (fake_sign r s None None)) r s);
    try reflexivity; lia.
Defined.

(** X9. When [gcry_pk_sign] returns a positive [r] below 2^152, its
    encoding is shorter than the 20-byte field: [crypto_aacs_sign]
    stores it at the start of the field (left-aligned) and the last byte
    of the field, byte 19 of the buffer, keeps the value the caller had
    there. The buffer still has its 40 bytes, and its first half, read
    the way [_aacs_sexp_signature] reads it, is a number other than
    [r], whatever bytes the buffer held before. *)
Theorem sign_short_r_left_aligned g cert priv_key signature nonce point sg r s :
  length signature = 40%nat -> bytes signature ->
  sexp_build g (sign_key cert priv_key) = 0 ->
  sexp_build g (sign_digest g nonce point) = 0 ->
  pk_sign g (Some (sign_digest g nonce point)) (Some (sign_key cert priv_key)) = (0, sg) ->
  gcry_sexp_nth_mpi (gcry_sexp_find_token "r" sg) 1 = Some r ->
  gcry_sexp_nth_mpi (gcry_sexp_find_token "s" sg) 1 = Some s ->
  0 < r < 2 ^ 152 -> 0 <= s < 2 ^ 160 ->
  exists sig,
    value (crypto_aacs_sign g cert priv_key signature nonce point) = Some sig
    /\ length sig = 40%nat
    /\ take (length (mpi_usg r)) sig = mpi_usg r
    /\ rd sig 19 = rd signature 19
    /\ gcry_mpi_scan sig 20 <> r.
Proof.
  intros Hl Hb Hk Hd Hsg Hr Hs Rr Rs.
  assert (Hnr : (length (mpi_usg r) <= 19)%nat) by (apply mpi_usg_length; lia).
  assert (Hns : (length (mpi_usg s) <= 20)%nat) by (apply mpi_usg_length; exact Rs).
  assert (Hv : be_to_Z (mpi_usg r) = r) by (apply mpi_usg_value; lia).
  rewrite sign_run. cbv zeta. rewrite Hk, Hd, Hsg. cbn [fst snd Z.eqb]. rewrite Hr, Hs.
  unfold value. cbn [fst]. rewrite sign_prints by lia.
  set (er := mpi_usg r) in *. set (es := mpi_usg s) in *.
  set (old := take (20 - length er) (drop (length er) signature)).
  assert (Hol : length old = (20 - length er)%nat)
    by (unfold old; rewrite length_take, length_drop; lia).
  eexists. split; [reflexivity|]. split; [|split; [|split]].
  - rewrite !length_app, Hol, !length_drop. lia.
  - now rewrite take_app_length.
  - unfold rd. rewrite app_nth2 by lia. rewrite app_nth1 by lia.
    unfold old. rewrite nth_firstn, nth_skipn.
    destruct (Nat.ltb_spec (19 - length er) (20 - length er)) as [_|]; [|lia].
    f_equal. lia.
  - unfold gcry_mpi_scan. rewrite app_assoc.
    rewrite take_app_length' by (rewrite length_app; lia).
    rewrite be_to_Z_app, Hv, Hol.
    assert (Hob : bytes old)
      by (unfold old, bytes; apply Forall_take, Forall_drop; exact Hb).
    pose proof (be_to_Z_range old Hob) as Ho.
    assert (2 ^ 8 <= 2 ^ (8 * Z.of_nat (20 - length er)))
      by (apply Z.pow_le_mono_r; lia).
    nia.
Qed.

Lemma sign_short_r_left_aligned_witness :
  let g := fake_gcrypt fake_sha1 (fun _ => 0) (fake_sign 5 (2 ^ 159 + 7))
                       (fake_verify 5 (2 ^ 159 + 7)) in
  let signature := replicate 40 0xAA in
  exists sig,
    value (crypto_aacs_sign g (sample_cert 2) (be_bytes 20 69) signature
                            (replicate 20 1) (replicate 40 2)) = Some sig
    /\ length sig = 40%nat
    /\ take (length (mpi_usg 5)) sig = mpi_usg 5
    /\ rd sig 19 = rd signature 19
    /\ gcry_mpi_scan sig 20 <> 5.
Proof.
  intros g signature.
  apply (sign_short_r_left_aligned g (sample_cert 2) (be_bytes 20 69) signature
           (replicate 20 1) (replicate 40 2)
           (snd (fake_sign 5 (2 ^ 159 + 7) None None)) 5 (2 ^ 159 + 7));
    try reflexivity; try lia.
  apply bytesb_ok. reflexivity.
Defined.

(** X10. [crypto_aacs_sign] reads bytes 12..51 of the certificate (the
    public key), the first 20 bytes of the private key and of the nonce,
    and the first 40 bytes of the point, and nothing else: two calls that
    agree on these bytes return the same buffer and make the same calls.
    In particular the certificate's type, length and signature fields
    are not looked at. *)
Theorem sign_reads_only g cert cert' priv_key priv_key' signature nonce nonce' point point' :
  take 40 (drop 12 cert) = take 40 (drop 12 cert') ->
  take 20 priv_key = take 20 priv_key' ->
  take 20 nonce = take 20 nonce' ->
  take 40 point = take 40 point' ->
  crypto_aacs_sign g cert priv_key signature nonce point
  = crypto_aacs_sign g cert' priv_key' signature nonce' point'.
Proof.
  intros Hc Hp Hn Hq.
  assert (Hx : take 20 (drop 12 cert) = take 20 (drop 12 cert')).
  { apply (f_equal (take 20)) in Hc. now rewrite !take_take in Hc. }
  assert (Hy : take 20 (drop 32 cert) = take 20 (drop 32 cert')).
  { apply (f_equal (drop 20)) in Hc. change 40%nat with (20 + 20)%nat in Hc.
    rewrite <- !take_drop_commute, !drop_drop in Hc. exact Hc. }
  rewrite !sign_run. unfold sign_key, sign_digest, gcry_mpi_scan.
  now rewrite Hx, Hy, Hp, Hn, Hq.
Qed.

Lemma sign_reads_only_witness :
  let g := fake_gcrypt fake_sha1 (fun _ => 0) (fake_sign 5 7) (fake_verify 5 7) in
  crypto_aacs_sign g (sample_cert 2) (be_bytes 20 69) (replicate 40 0xAA)
                   (replicate 20 1) (replicate 40 2)
  = crypto_aacs_sign g (sample_cert 1) (be_bytes 20 69 ++ [9]) (replicate 40 0xAA)
                     (replicate 21 1) (replicate 40 2 ++ [3; 4]).
Proof.
  intros g.
  apply (sign_reads_only g (sample_cert 2) (sample_cert 1) (be_bytes 20 69)
           (be_bytes 20 69 ++ [9]) (replicate 40 0xAA) (replicate 20 1) (replicate 21 1)
           (replicate 40 2) (replicate 40 2 ++ [3; 4])); reflexivity.
Defined.

(** ** The bus key, whatever the scratch array holds *)

Lemma create_bus_key_cases priv_key drive_key_point q_x_bin :
  length q_x_bin = 100%nat ->
  crypto_create_bus_key priv_key drive_key_point q_x_bin
  = if (16 <=? length (mpi_usg (bus_key_x priv_key drive_key_point)))%nat
    then Some (low16 (bus_key_x priv_key drive_key_point))
    else None.
Proof.
  intros Hq.
  pose proof (bus_key_x_range priv_key drive_key_point) as Hx.
  pose proof (mpi_usg_length _ 20 Hx) as Hn.
  rewrite create_bus_key_unfold.
  set (x := bus_key_x priv_key drive_key_point) in *.
  assert (El : length (mpi_usg x) = Z.to_nat ((mpi_get_nbits x + 7) / 8))
    by (unfold mpi_usg; apply be_bytes_length).
  set (n := length (mpi_usg x)) in *.
  unfold memcpy_src, write_at. rewrite take_0, app_nil_l, Nat.add_0_l.
  rewrite length_app, length_drop. fold n.
  destruct (Nat.leb_spec 16 n) as [H16|H16].
  - destruct (Z.leb_spec 0 (Z.of_nat n - 16)); [|lia].
    destruct (Z.leb_spec (Z.of_nat n - 16 + Z.of_nat 16) (Z.of_nat (n + (length q_x_bin - n))));
      [|lia].
    cbn [andb]. replace (Z.to_nat (Z.of_nat n - 16)) with (n - 16)%nat by lia.
    f_equal. rewrite drop_app_le by (fold n; lia).
    rewrite take_app_le by (rewrite length_drop; fold n; lia).
    rewrite firstn_all2 by (rewrite length_drop; fold n; lia).
    unfold low16, mpi_usg. rewrite <- El. now apply be_bytes_drop.
  - destruct (Z.leb_spec 0 (Z.of_nat n - 16)); [lia|]. reflexivity.
Qed.

(** X11. [crypto_create_bus_key] never hands back what the local array
    [q_x_bin] held before the call: for every content of these 100
    bytes the outcome is the same. When 16 bytes are copied, they are
    bytes and their big-endian value is the x-coordinate of the shared
    point modulo 2^128. *)
Theorem bus_key_scratch_free priv_key drive_key_point q_x_bin q_x_bin' :
  length q_x_bin = 100%nat -> length q_x_bin' = 100%nat ->
  crypto_create_bus_key priv_key drive_key_point q_x_bin
  = crypto_create_bus_key priv_key drive_key_point q_x_bin'
  /\ forall bus_key,
       crypto_create_bus_key priv_key drive_key_point q_x_bin = Some bus_key ->
       length bus_key = 16%nat /\ bytes bus_key
       /\ be_to_Z bus_key = bus_key_x priv_key drive_key_point mod 2 ^ 128.
Proof.
  intros H H'. rewrite !create_bus_key_cases by assumption. split; [reflexivity|].
  intros k. destruct (16 <=? _)%nat; [|discriminate].
  intros [= <-]. unfold low16.
  split; [apply be_bytes_length|]. split; [apply be_bytes_bytes|].
  apply be_to_Z_be_bytes.
Qed.

Lemma bus_key_scratch_free_witness :
  let priv_key := be_bytes 20 5 in
  let drive_key_point :=
    be_bytes 20 1 ++ be_bytes 20 0x3c3e82aa9de89a16212b37da110094bb6c0b740a in
  crypto_create_bus_key priv_key drive_key_point (replicate 100 0xAA)
  = crypto_create_bus_key priv_key drive_key_point (replicate 100 0x55)
  /\ forall bus_key,
       crypto_create_bus_key priv_key drive_key_point (replicate 100 0xAA) = Some bus_key ->
       length bus_key = 16%nat /\ bytes bus_key
       /\ be_to_Z bus_key = bus_key_x priv_key drive_key_point mod 2 ^ 128.
Proof.
  intros priv_key drive_key_point.
  apply (bus_key_scratch_free priv_key drive_key_point (replicate 100 0xAA)
           (replicate 100 0x55)); reflexivity.
Defined.

(** X12. A private key whose first 20 bytes are all zero gives no bus
    key: the product is the point at infinity, the conversion to affine
    coordinates fails and leaves [q_x] at the zero it was created with,
    whose encoding is empty ([n] = 0), so the 16 bytes are read from 16
    bytes before [q_x_bin]. *)
Theorem bus_key_zero_private_key priv_key drive_key_point q_x_bin :
  gcry_mpi_scan priv_key 20 = 0 ->
  bus_key_x priv_key drive_key_point = 0
  /\ mpi_usg (bus_key_x priv_key drive_key_point) = []
  /\ crypto_create_bus_key priv_key drive_key_point q_x_bin = None.
Proof.
  intros H.
  assert (Hx : bus_key_x priv_key drive_key_point = 0).
  { unfold bus_key_x. rewrite H. reflexivity. }
  rewrite create_bus_key_unfold, Hx. repeat split.
Qed.

Lemma bus_key_zero_private_key_witness :
  let priv_key := replicate 20 0 ++ [7] in
  let drive_key_point :=
    be_bytes 20 1 ++ be_bytes 20 0x3c3e82aa9de89a16212b37da110094bb6c0b740a in
  bus_key_x priv_key drive_key_point = 0
  /\ mpi_usg (bus_key_x priv_key drive_key_point) = []
  /\ crypto_create_bus_key priv_key drive_key_point (replicate 100 0xAA) = None.
Proof.
  intros priv_key drive_key_point.
  apply (bus_key_zero_private_key priv_key drive_key_point (replicate 100 0xAA)).
  reflexivity.
Defined.

(** ** The host key pair, when both coordinates have full width *)

Lemma host_key_pair_unfold random host_key_point :
  crypto_create_host_key_pair random host_key_point
  = let q := default (0, 0)
               (_gcry_mpi_ec_get_affine
                  (_gcry_mpi_ec_mul_point (gcry_mpi_scan random 20)
                     (ec_G _aacs_curve_init) aacs_ctx) aacs_ctx) in
    (take 20 random,
     fst (gcry_mpi_print (fst (gcry_mpi_print host_key_point 0 20 0 (fst q))) 20 20 0 (snd q))).
Proof.
  unfold crypto_create_host_key_pair, gcry_mpi_scan. rewrite take_take. reflexivity.
Qed.

Lemma aacs_p_bound : 2 ^ 152 < ctx_p aacs_ctx < 2 ^ 160.
Proof. split; reflexivity. Qed.

(** X13. [crypto_create_host_key_pair] hands back the first 20 random
    bytes as the host key. When both affine coordinates of d G, d being
    these bytes read as a big-endian number, are at least 2^152, the
    40-byte point buffer is overwritten in full with the 20-byte
    encodings of x and y, so that scanning its two halves gives the
    coordinates back; nothing of its old content is left. *)
Theorem host_key_pair_full_width random host_key_point x y :
  length host_key_point = 40%nat ->
  ec_mul aacs_ctx (gcry_mpi_scan random 20) aacs_G = Some (x, y) ->
  2 ^ 152 <= x < ctx_p aacs_ctx -> 2 ^ 152 <= y < ctx_p aacs_ctx ->
  let r := crypto_create_host_key_pair random host_key_point in
  r = (take 20 random, be_bytes 20 x ++ be_bytes 20 y)
  /\ gcry_mpi_scan (snd r) 20 = x
  /\ gcry_mpi_scan (drop 20 (snd r)) 20 = y.
Proof.
  intros Hl Hm Hx Hy r. subst r.
  pose proof aacs_p_bound as Hp.
  assert (E : crypto_create_host_key_pair random host_key_point
              = (take 20 random, be_bytes 20 x ++ be_bytes 20 y)).
  { rewrite host_key_pair_unfold. unfold _gcry_mpi_ec_mul_point.
    change (_gcry_mpi_ec_get_affine (ec_G _aacs_curve_init) aacs_ctx) with aacs_G.
    rewrite Hm. unfold _gcry_mpi_ec_get_affine. cbn [px py pz].
    change (1 mod ctx_p aacs_ctx =? 0) with false.
    change (ec_invm aacs_ctx 1) with 1. cbv zeta.
    rewrite !Z.mul_1_r, !Z.mod_small by lia.
    cbn [default from_option id fst snd].
    rewrite sign_prints; rewrite ?mpi_usg_full_width by lia;
      rewrite ?be_bytes_length; try lia.
    rewrite Nat.sub_diag, take_0, app_nil_l.
    rewrite (drop_ge host_key_point) by lia. now rewrite app_nil_r. }
  rewrite E. cbn [snd]. split; [reflexivity|]. unfold gcry_mpi_scan.
  rewrite take_app_length' by now rewrite be_bytes_length.
  rewrite drop_app_length' by now rewrite be_bytes_length.
  rewrite firstn_all2 by (rewrite be_bytes_length; lia).
  rewrite !be_to_Z_be_bytes. change (2 ^ (8 * Z.of_nat 20)) with (2 ^ 160).
  rewrite !Z.mod_small by lia. auto.
Qed.

Lemma host_key_pair_full_width_witness :
  let random := be_bytes 20 1 ++ [0xEE] in
  let x := 0x2E64FC22578351E6F4CCA7EB81D0A4BDC54CCEC6 in
  let y := 0x0914A25DD05442889DB455C7F23C9A0707F5CBB9 in
  let r := crypto_create_host_key_pair random (replicate 40 0xAA) in
  r = (take 20 random, be_bytes 20 x ++ be_bytes 20 y)
  /\ gcry_mpi_scan (snd r) 20 = x
  /\ gcry_mpi_scan (drop 20 (snd r)) 20 = y.
Proof.
  intros random x y.
  apply (host_key_pair_full_width random (replicate 40 0xAA) x y).
  - reflexivity.
  - vm_compute. reflexivity.
  - vm_compute. split; [discriminate|reflexivity].
  - vm_compute. split; [discriminate|reflexivity].
Defined.

(** ** Local arrays and certificate bounds *)

(** X14. The arrays [k1] and [k2] that the caller of [_cmac_key] passes
    uninitialised do not influence the subkeys: for every content of
    the two 16-byte arrays on entry, the same two subkeys come back and
    the same single encryption is made. *)
Theorem cmac_key_ignores_arrays g aes_key k1 k2 k1' k2' :
  length k1 = 16%nat -> length k2 = 16%nat ->
  length k1' = 16%nat -> length k2' = 16%nat ->
  _cmac_key g aes_key k1 k2 = _cmac_key g aes_key k1' k2'.
Proof.
  intros H1 H2 H1' H2'.
  unfold _cmac_key, bind, gcry_cipher_encrypt, ret.
  set (Lb := cipher_encrypt g aes_key (replicate 16 0)).
  assert (HLl : length Lb = 16%nat) by apply cipher_encrypt_len.
  assert (HLb : bytes Lb) by apply cipher_encrypt_bytes.
  rewrite (shl_128_dst_irrelevant k1 k1' Lb H1 H1' HLl).
  pose proof (cmac_subkey_step k1' Lb H1' HLl HLb) as HK. cbv zeta in HK.
  set (K1 := if Z.land (rd Lb 0) 128 =? 0 then _shl_128 k1' Lb
             else <[15%nat:=Z.lxor (rd (_shl_128 k1' Lb) 15) 135]> (_shl_128 k1' Lb)) in *.
  destruct HK as (_ & _ & HKl).
  now rewrite (shl_128_dst_irrelevant k2 k2' K1 H2 H2' HKl).
Qed.

Lemma cmac_key_ignores_arrays_witness :
  let g := fake_gcrypt fake_sha1 (fun _ => 0) (fake_sign 5 7) (fake_verify 5 7) in
  let aes_key := map Z.of_nat (seq 100 16) in
  _cmac_key g aes_key (replicate 16 0xAA) (replicate 16 0x55)
  = _cmac_key g aes_key (replicate 16 0) (map Z.of_nat (seq 0 16)).
Proof.
  intros g aes_key.
  apply (cmac_key_ignores_arrays g aes_key (replicate 16 0xAA) (replicate 16 0x55)
           (replicate 16 0) (map Z.of_nat (seq 0 16))); reflexivity.
Defined.

(** X15. The certificate checks read the first 92 bytes of the buffer
    and nothing after them: on any buffer, [crypto_aacs_verify_cert],
    [crypto_aacs_verify_host_cert] and [crypto_aacs_verify_drive_cert]
    return the same value and make the same calls as on its first 92
    bytes. *)
Theorem verify_cert_reads_92 g cert :
  crypto_aacs_verify_cert g cert = crypto_aacs_verify_cert g (take 92 cert)
  /\ crypto_aacs_verify_host_cert g cert = crypto_aacs_verify_host_cert g (take 92 cert)
  /\ crypto_aacs_verify_drive_cert g cert = crypto_aacs_verify_drive_cert g (take 92 cert).
Proof.
  assert (Hrd : forall i, (i < 92)%nat -> rd (take 92 cert) i = rd cert i).
  { intros i Hi. unfold rd. rewrite nth_firstn.
    destruct (Nat.ltb_spec i 92); [reflexivity|lia]. }
  assert (Hm : MKINT_BE16 (drop 2 (take 92 cert)) = MKINT_BE16 (drop 2 cert)).
  { unfold MKINT_BE16, rd. rewrite !nth_skipn. cbn [Nat.add].
    fold (rd (take 92 cert) 2). fold (rd (take 92 cert) 3).
    now rewrite !Hrd by lia. }
  assert (Hc : crypto_aacs_verify_cert g cert = crypto_aacs_verify_cert g (take 92 cert)).
  { unfold crypto_aacs_verify_cert, crypto_aacs_verify_aacsla. rewrite Hm.
    rewrite (aacs_verify_slices g (drop 52 cert)).
    rewrite (aacs_verify_slices g (drop 52 (take 92 cert))).
    change 92%nat with (52 + 40)%nat.
    rewrite <- take_drop_commute, !take_take. reflexivity. }
  split; [exact Hc|].
  unfold crypto_aacs_verify_host_cert, crypto_aacs_verify_drive_cert.
  now rewrite <- Hc, !Hrd by lia.
Qed.

(** ** Signing, then verifying *)

(** X16. A signature made by [crypto_aacs_sign] with [r] and [s] of 153
    to 160 bits, given to [crypto_aacs_verify] with the same certificate
    and the 60 bytes nonce || point as data, is judged by libgcrypt on
    the very numbers [r] and [s], on the digest that was signed, and on
    the public key of the certificate: once the public key and the
    signature expressions are built, the result is 1 exactly when
    [gcry_pk_verify] returns 0 on those three. *)
Theorem sign_verify_round_trip g cert priv_key signature nonce point sg r s :
  length signature = 40%nat -> length nonce = 20%nat ->
  sexp_build g (sign_key cert priv_key) = 0 ->
  sexp_build g (sign_digest g nonce point) = 0 ->
  pk_sign g (Some (sign_digest g nonce point)) (Some (sign_key cert priv_key)) = (0, sg) ->
  gcry_sexp_nth_mpi (gcry_sexp_find_token "r" sg) 1 = Some r ->
  gcry_sexp_nth_mpi (gcry_sexp_find_token "s" sg) 1 = Some s ->
  2 ^ 152 <= r < 2 ^ 160 -> 2 ^ 152 <= s < 2 ^ 160 ->
  sexp_build g (verify_key (drop 12 cert) (drop 32 cert)) = 0 ->
  sexp_build g (sexp_sig_fmt r s) = 0 ->
  exists sig,
    value (crypto_aacs_sign g cert priv_key signature nonce point) = Some sig
    /\ value (crypto_aacs_verify g cert sig (nonce ++ point) 60)
       = lnot (pk_verify g (Some (sexp_sig_fmt r s)) (Some (sign_digest g nonce point))
                         (Some (verify_key (drop 12 cert) (drop 32 cert)))).
Proof.
  intros Hl Hn Hk Hd Hsg Hr Hs Rr Rs Hvk Hvs.
  exists (be_bytes 20 r ++ be_bytes 20 s). split.
  - now rewrite (sign_full_width g cert priv_key signature nonce point sg r s).
  - unfold crypto_aacs_verify, bind, ret, value.
    rewrite aacs_verify_run. cbv zeta.
    rewrite verify_sig_full_width by lia.
    assert (Ed : verify_digest g (nonce ++ point) 60 = sign_digest g nonce point).
    { unfold verify_digest, sign_digest. do 3 f_equal.
      rewrite take_app_ge by lia. rewrite Hn.
      f_equal. symmetry. apply firstn_all2. lia. }
    rewrite Ed, Hvk, Hd, Hvs. reflexivity.
Qed.

Lemma sign_verify_round_trip_witness :
  let r := 2 ^ 159 + 5 in
  let s := 2 ^ 159 + 7 in
  let g := fake_gcrypt fake_sha1 (fun _ => 0) (fake_sign r s) (fake_verify r s) in
  let cert := sample_cert 2 in
  let nonce := replicate 20 1 in
  let point := replicate 40 2 in
  exists sig,
    value (crypto_aacs_sign g cert (be_bytes 20 69) (replicate 40 0xAA) nonce point)
    = Some sig
    /\ value (crypto_aacs_verify g cert sig (nonce ++ point) 60)
       = lnot (pk_verify g (Some (sexp_sig_fmt r s)) (Some (sign_digest g nonce point))
                         (Some (verify_key (drop 12 cert) (drop 32 cert)))).
Proof.
  intros r s g cert nonce point.
  apply (sign_verify_round_trip g cert (be_bytes 20 69) (replicate 40 0xAA) nonce point
           (snd (fake_sign r s None None)) r s);
    try reflexivity; lia.
Defined.

(** ** The host key pair, when the product is the point at infinity *)

(** X17. When the random scalar sends the base point to the point at
    infinity, as the scalar 0 does, the conversion to affine coordinates
    fails, [q_x] and [q_y] stay the zeros they were created with, their
    encodings are empty, and [crypto_create_host_key_pair] returns with
    the 40-byte point buffer exactly as the caller passed it in: no
    public point is written. *)
Theorem host_key_pair_infinity random host_key_point :
  ec_mul aacs_ctx (gcry_mpi_scan random 20) aacs_G = None ->
  crypto_create_host_key_pair random host_key_point = (take 20 random, host_key_point).
Proof.
  intros H. rewrite host_key_pair_unfold. unfold _gcry_mpi_ec_mul_point.
  change (_gcry_mpi_ec_get_affine (ec_G _aacs_curve_init) aacs_ctx) with aacs_G.
  rewrite H.
  change (_gcry_mpi_ec_get_affine {| px := 0; py := 0; pz := 0 |} aacs_ctx) with (@None (Z * Z)).
  cbn [default from_option id fst snd]. cbv zeta. cbn [default from_option id fst snd].
  unfold gcry_mpi_print. change (mpi_usg 0) with (@nil Z). cbn [length Nat.leb fst].
  unfold write_at. cbn [length app]. rewrite take_0, !Nat.add_0_r. cbn [app drop].
  now rewrite take_drop.
Qed.

Lemma host_key_pair_infinity_witness :
  crypto_create_host_key_pair (replicate 20 0 ++ [0xEE]) (replicate 40 0xAA)
  = (take 20 (replicate 20 0 ++ [0xEE]), replicate 40 0xAA).
Proof.
  apply (host_key_pair_infinity (replicate 20 0 ++ [0xEE]) (replicate 40 0xAA)).
  reflexivity.
Defined.
